(** * AsyncStore: the versioned table store of react-with-use

    A shallow embedding of [src/react-with-use/src/asyncStore.ts].  The class
    wraps the browser's IndexedDB engine; the engine is the environment of
    the program, so the file first gives a model of the part of IndexedDB
    that the class calls (databases, object stores with out-of-line keys,
    unique indexes, requests and their events), and then the class itself,
    method by method. *)

From stdpp Require Import gmap strings list fin_maps sorting pretty.
From Stdlib Require Import ZArith Ascii.

Local Open Scope Z_scope.
Local Open Scope string_scope.

(** ** JavaScript values *)

(** Property values of a stored record. *)
Inductive prim :=
  | PUndefined
  | PNull
  | PBool (b : bool)
  | PNum (n : Z)
  | PStr (s : string).

#[global] Instance prim_eq_dec : EqDecision prim.
Proof. solve_decision. Defined.

(** A record ([R extends {}]) is an object: a finite map from property names
    to values.  [Partial<Omit<R, "id">> & { id: I }] is an object too. *)
Abbreviation resource := (gmap string prim).

(** [IDBValidKey], restricted to numbers and strings. *)
Inductive IDBValidKey :=
  | KNum (n : Z)
  | KStr (s : string).

#[global] Instance IDBValidKey_eq_dec : EqDecision IDBValidKey.
Proof. solve_decision. Defined.

#[global] Instance IDBValidKey_countable : Countable IDBValidKey.
Proof.
  refine (inj_countable'
            (fun k => match k with KNum n => inl n | KStr s => inr s end)
            (fun x => match x with inl n => KNum n | inr s => KStr s end) _).
  by intros [].
Defined.

(** JavaScript has two values for absence: a value of a type [A | null] is
    [null] or an [A], and what is read where nothing is, is [undefined]. *)
Inductive nullable (A : Type) :=
  | undefined
  | null
  | present (a : A).
Arguments undefined {A}.
Arguments null {A}.
Arguments present {A} a.

(** What a lookup gives: the value, or [undefined] when there is none. *)
Definition found {A} (o : option A) : nullable A :=
  match o with
  | Some a => present a
  | None => undefined
  end.

(** The engine's conversion of a value to a key: everything that is not a
    number or a string is refused. *)
Definition to_key (v : prim) : option IDBValidKey :=
  match v with
  | PNum n => Some (KNum n)
  | PStr s => Some (KStr s)
  | _ => None
  end.

(** The engine's order on keys: numbers before strings. *)
Definition key_le (a b : IDBValidKey) : Prop :=
  match a, b with
  | KNum m, KNum n => m <= n
  | KNum _, KStr _ => True
  | KStr _, KNum _ => False
  | KStr s, KStr t => String.leb s t = true
  end.

#[global] Instance key_le_dec a b : Decision (key_le a b).
Proof. destruct a, b; simpl; apply _. Defined.

(** ** Errors *)

Inductive ErrorClass :=
  | Error
  | TypeError
  | DOMException
  | BaseError
  | NoDbFoundError
  | OpeningDbError
  | UnknownError.

#[global] Instance ErrorClass_eq_dec : EqDecision ErrorClass.
Proof. solve_decision. Defined.

Record JsError := mkError {
  constructor : ErrorClass;
  name : string;
  message : string
}.

(** [class X extends Y] *)
Definition extends (c : ErrorClass) : option ErrorClass :=
  match c with
  | Error => None
  | TypeError => Some Error
  | DOMException => Some Error
  | BaseError => Some Error
  | NoDbFoundError => Some BaseError
  | OpeningDbError => Some BaseError
  | UnknownError => Some BaseError
  end.

Fixpoint inherits (fuel : nat) (c target : ErrorClass) : bool :=
  bool_decide (c = target) ||
  match fuel with
  | O => false
  | S fuel' =>
      match extends c with
      | Some parent => inherits fuel' parent target
      | None => false
      end
  end.

(** [error instanceof C]; the hierarchy is two levels deep. *)
Definition instanceof (error : JsError) (C : ErrorClass) : bool :=
  inherits 2 (constructor error) C.

(** [new Error(message)] *)
Definition new_Error (message : string) : JsError :=
  mkError Error "Error" message.

(** class BaseError: [this.name = "AsyncStore"; this.message = message]. *)
Definition new_BaseError (message : string) : JsError :=
  mkError BaseError "AsyncStore" message.

Definition new_NoDbFoundError : JsError :=
  mkError NoDbFoundError "AsyncStore" "Failed, no db found".

Definition new_OpeningDbError : JsError :=
  mkError OpeningDbError "AsyncStore" "Failed while opening indexedDB.".

Definition new_UnknownError : JsError :=
  mkError UnknownError "AsyncStore" "Found an unknown error.".

(** [Error.prototype.toString] *)
Definition toString (error : JsError) : string :=
  if bool_decide (message error = "") then name error
  else if bool_decide (name error = "") then message error
  else name error ++ ": " ++ message error.

(** ** Control flow: completions and promises *)

(** How a piece of code ends: normally, by a throw, or not at all (it
    awaits a promise that never settles). *)
Inductive completion (A : Type) :=
  | Normal (a : A)
  | Throw (e : JsError)
  | Suspended.
Arguments Normal {A} a.
Arguments Throw {A} e.
Arguments Suspended {A}.

(** The final state of a promise. *)
Inductive Settled (A : Type) :=
  | Resolved (a : A)
  | Rejected (e : JsError)
  | Pending.
Arguments Resolved {A} a.
Arguments Rejected {A} e.
Arguments Pending {A}.

(** State and exceptions. *)
Definition Eff (S A : Type) : Type := S -> completion A * S.

#[global] Instance Eff_ret {S} : MRet (Eff S) :=
  fun A a s => (Normal a, s).

#[global] Instance Eff_bind {S} : MBind (Eff S) :=
  fun A B k m s =>
    match m s with
    | (Normal a, s') => k a s'
    | (Throw e, s') => (Throw e, s')
    | (Suspended, s') => (Suspended, s')
    end.

Definition throw {S A} (e : JsError) : Eff S A := fun s => (Throw e, s).

Definition try_catch {S A} (body : Eff S A) (handler : JsError -> Eff S A)
  : Eff S A :=
  fun s =>
    match body s with
    | (Throw e, s') => handler e s'
    | r => r
    end.

Definition modify {S} (f : S -> S) : Eff S unit := fun s => (Normal tt, f s).

(** [xs.forEach(f)] *)
Fixpoint forEach {S A} (xs : list A) (f : A -> Eff S unit) : Eff S unit :=
  match xs with
  | [] => mret tt
  | x :: xs' => f x;; forEach xs' f
  end.

(** ** The IndexedDB engine *)

Record IDBIndexParameters := mkIndexParameters {
  unique : bool;
  multiEntry : bool
}.

(** An object store without key path and without key generator, as
    [createObjectStore(tableName)] makes it: every record is stored under a
    key given by the caller.  An index created by
    [createIndex(tableKey, tableKey, options)] has its name as key path. *)
Record ObjectStore := mkObjectStore {
  indexes : gmap string IDBIndexParameters;
  records : gmap IDBValidKey resource
}.

Record Database := mkDatabase {
  version : Z;
  objectStores : gmap string ObjectStore
}.

(** A connection ([IDBDatabase]): the database as the connection sees it,
    and whether the connection is inside its upgrade transaction. *)
Record IDBDatabase := mkConnection {
  contents : Database;
  upgrade_transaction : bool
}.

(** What is left to the browser's engine: which strings it accepts as a
    key path, the key a path extracts from a record (none when the path leads
    to no value or to a value that is not a key), and the message text of the
    exceptions it raises, by their name (the text depends on the browser and
    on the place too; one text per name is kept here). *)
Class Engine := {
  valid_key_path : string -> bool;
  evaluate_key_path : string -> resource -> option IDBValidKey;
  exception_text : string -> string
}.

(** The errors of the engine: a [DOMException] of a given name, and the
    [TypeError] of a call with a bad argument. *)
Definition new_DOMException `{Engine} (name : string) : JsError :=
  mkError DOMException name (exception_text name).

Definition new_TypeError `{Engine} : JsError :=
  mkError TypeError "TypeError" (exception_text "TypeError").

(** The world outside the class: the persisted database named
    "react-with-use", and [crypto.randomUUID] as a sequence of results of
    which [drawn] have been handed out. *)
Record World := mkWorld {
  backing : Database;
  uuids : nat -> string;
  drawn : nat
}.

Definition set_backing (d : Database) (w : World) : World :=
  mkWorld d (uuids w) (drawn w).

(** [globalThis.crypto.randomUUID()] *)
Definition randomUUID : Eff World string :=
  fun w => (Normal (uuids w (drawn w)), mkWorld (backing w) (uuids w) (S (drawn w))).

(** Values of type [unknown], as far as [isIDbRequest] looks at them. *)
Inductive unknown :=
  | Undefined
  | Null
  | Primitive
  | Object (properties : list string).

(** A request and the event it ends with: [success] with a result or
    [error] with an error. *)
Record IDBRequest (R : Type) := mkRequest {
  properties_of : list string;
  fires : R + JsError
}.
Arguments mkRequest {R} _ _.
Arguments properties_of {R} _.
Arguments fires {R} _.

Definition IDBRequest_properties : list string :=
  ["result"; "error"; "source"; "transaction"; "readyState";
   "onsuccess"; "onerror"].

Definition request {R} (outcome : R + JsError) : IDBRequest R :=
  mkRequest IDBRequest_properties outcome.

(** [event.target] of an event fired at a request *)
Definition event_target {R} (req : IDBRequest R) : unknown :=
  Object (properties_of req).

(** A transaction on one table, and the handle on the table it gives. *)
Inductive IDBTransactionMode := readonly | readwrite.

Record IDBTransaction := mkTransaction {
  scope : string;
  mode : IDBTransactionMode
}.

Record IDBObjectStore := mkHandle {
  store_name : string;
  transaction : IDBTransaction
}.

Section Requests.
Context `{Engine}.

(** A stored record other than the one at [key] has the same key as
    [value] in the index [name]. *)
Definition same_index_key (name : string) (key : IDBValidKey)
    (value : resource) (k : IDBValidKey) (v : resource) : Prop :=
  k <> key /\ is_Some (evaluate_key_path name value) /\
  evaluate_key_path name v = evaluate_key_path name value.

(** Storing [value] under [key] would break a unique index. *)
Definition violates_unique (os : ObjectStore) (key : IDBValidKey)
    (value : resource) : Prop :=
  map_Exists (fun name params =>
    unique params = true /\
    map_Exists (same_index_key name key value) (records os)) (indexes os).

#[global] Instance violates_unique_dec os key value :
  Decision (violates_unique os key value).
Proof. unfold violates_unique, same_index_key. apply _. Defined.

(** [db.createObjectStore(name)] *)
Definition createObjectStore (name : string) : Eff IDBDatabase string :=
  fun this =>
    if negb (upgrade_transaction this) then
      (Throw (new_DOMException "InvalidStateError"), this)
    else if bool_decide (is_Some (objectStores (contents this) !! name)) then
      (Throw (new_DOMException "ConstraintError"), this)
    else
      (Normal name,
       mkConnection
         (mkDatabase (version (contents this))
            (<[name := mkObjectStore ∅ ∅]> (objectStores (contents this))))
         true).

(** [table.createIndex(name, keyPath, options)] on a store of the upgrade
    transaction *)
Definition createIndex (table : string) (name keyPath : string)
    (options : IDBIndexParameters) : Eff IDBDatabase unit :=
  fun this =>
    if negb (valid_key_path keyPath) then
      (Throw (new_DOMException "SyntaxError"), this)
    else
      match objectStores (contents this) !! table with
      | None => (Throw (new_DOMException "InvalidStateError"), this)
      | Some os =>
          if negb (upgrade_transaction this) then
            (Throw (new_DOMException "TransactionInactiveError"), this)
          else if bool_decide (is_Some (indexes os !! name)) then
            (Throw (new_DOMException "ConstraintError"), this)
          else
            (Normal tt,
             mkConnection
               (mkDatabase (version (contents this))
                  (<[table := mkObjectStore (<[name := options]> (indexes os))
                                (records os)]>
                     (objectStores (contents this))))
               true)
      end.

(** [db.objectStoreNames.contains(table)] *)
Definition objectStoreNames_contains (this : IDBDatabase) (table : string)
  : bool :=
  bool_decide (is_Some (objectStores (contents this) !! table)).

(** [db.transaction(table, mode)]: the table must exist. *)
Definition IDBDatabase_transaction (table : string) (mode : IDBTransactionMode)
  : Eff World IDBTransaction :=
  fun w =>
    match objectStores (backing w) !! table with
    | Some _ => (Normal (mkTransaction table mode), w)
    | None => (Throw (new_DOMException "NotFoundError"), w)
    end.

(** [transaction.objectStore(table)]: the table must be in the scope. *)
Definition IDBTransaction_objectStore (transaction : IDBTransaction)
    (table : string) : Eff World IDBObjectStore :=
  if bool_decide (scope transaction = table) then
    mret (mkHandle table transaction)
  else throw (new_DOMException "NotFoundError").

(** The store behind a handle. *)
Definition store_of (table : IDBObjectStore) : Eff World ObjectStore :=
  fun w =>
    match objectStores (backing w) !! store_name table with
    | Some os => (Normal os, w)
    | None => (Throw (new_DOMException "InvalidStateError"), w)
    end.

(** A request that writes is refused in a read-only transaction. *)
Definition writable (table : IDBObjectStore) : Eff World unit :=
  match mode (transaction table) with
  | readwrite => mret tt
  | readonly => throw (new_DOMException "ReadOnlyError")
  end.

Definition write_store (table : IDBObjectStore) (os : ObjectStore)
  : Eff World unit :=
  modify (fun w =>
    set_backing
      (mkDatabase (version (backing w))
         (<[store_name table := os]> (objectStores (backing w)))) w).

(** The engine may be unable to carry out a request (the disk fails, the
    quota is used up, the transaction is aborted): it then fires [error] at
    the request, with an exception of its own, and reads and writes nothing.
    [fault] is that exception's name, or [None] when the engine serves the
    request. *)
Definition served {R} (fault : option string)
    (serve : Eff World (IDBRequest R)) : Eff World (IDBRequest R) :=
  match fault with
  | Some name => mret (request (inr (new_DOMException name)))
  | None => serve
  end.

(** [table.get(key)]: the record, or [undefined] when the key is absent. *)
Definition IDBObjectStore_get (fault : option string) (table : IDBObjectStore)
    (key : IDBValidKey) : Eff World (IDBRequest (nullable resource)) :=
  os ← store_of table;
  served fault (mret (request (inl (found (records os !! key))))).

(** [table.getAll()]: all records, in the order of their keys. *)
Definition IDBObjectStore_getAll (fault : option string)
    (table : IDBObjectStore)
  : Eff World (IDBRequest (option (list resource))) :=
  os ← store_of table;
  served fault (mret (request (inl (Some
    ((merge_sort (fun a b => key_le a.1 b.1) (map_to_list (records os))).*2))))).

(** [table.add(value, key)]: refuses a key that is taken. *)
Definition IDBObjectStore_add (fault : option string) (table : IDBObjectStore)
    (value : resource) (key : prim) : Eff World (IDBRequest IDBValidKey) :=
  writable table;;
  match to_key key with
  | None => throw (new_DOMException "DataError")
  | Some k =>
      os ← store_of table;
      served fault
        (if bool_decide (is_Some (records os !! k)) then
           mret (request (inr (new_DOMException "ConstraintError")))
         else if bool_decide (violates_unique os k value) then
           mret (request (inr (new_DOMException "ConstraintError")))
         else
           write_store table
             (mkObjectStore (indexes os) (<[k := value]> (records os)));;
           mret (request (inl k)))
  end.

(** [table.put(value, key)]: stores under [key], replacing what is there. *)
Definition IDBObjectStore_put (fault : option string) (table : IDBObjectStore)
    (value : resource) (key : prim) : Eff World (IDBRequest IDBValidKey) :=
  writable table;;
  match to_key key with
  | None => throw (new_DOMException "DataError")
  | Some k =>
      os ← store_of table;
      served fault
        (if bool_decide (violates_unique os k value) then
           mret (request (inr (new_DOMException "ConstraintError")))
         else
           write_store table
             (mkObjectStore (indexes os) (<[k := value]> (records os)));;
           mret (request (inl k)))
  end.

(** [table.delete(key)]: succeeds whether or not the key is there. *)
Definition IDBObjectStore_delete (fault : option string)
    (table : IDBObjectStore) (key : IDBValidKey)
  : Eff World (IDBRequest unit) :=
  writable table;;
  os ← store_of table;
  served fault
    (write_store table (mkObjectStore (indexes os) (delete key (records os)));;
     mret (request (inl tt))).

End Requests.

(** ** asyncStore.ts *)

(** [type Tables = Record<string, Record<string, IDBIndexParameters>>] *)
Abbreviation Tables := (gmap string (gmap string IDBIndexParameters)).

Definition Object_keys {A} (o : gmap string A) : list string :=
  (map_to_list o).*1.

Definition Object_entries {A} (o : gmap string A) : list (string * A) :=
  map_to_list o.

(** [interface Store { db; store }]: the connection is a handle on the
    database of that name. *)
Record Store := mkStore { db : string }.

(** [function isIDbRequest<E>(value: unknown): value is IDBRequest<E>] *)
Definition isIDbRequest (value : unknown) : bool :=
  match value with
  | Object properties => bool_decide ("result" ∈ properties)
  | _ => false
  end.

(** What a callback does to the promise of the executor it was set in. *)
Inductive handler_result (A : Type) :=
  | Resolve (a : A)
  | Reject (e : JsError)
  | Throws (e : JsError).
Arguments Resolve {A} a.
Arguments Reject {A} e.
Arguments Throws {A} e.

(** A callback that throws leaves the promise as it was: pending. *)
Definition settle {A} (r : handler_result A) : Settled A :=
  match r with
  | Resolve a => Resolved a
  | Reject e => Rejected e
  | Throws _ => Pending
  end.

(** [new Promise((resolve, reject) => { result.onerror = ...;
    result.onsuccess = ... })] on a request *)
Definition new_Promise {R A} (result : IDBRequest R)
    (onerror : unknown -> JsError -> handler_result A)
    (onsuccess : unknown -> R -> handler_result A) : Settled A :=
  match fires result with
  | inl r => settle (onsuccess (event_target result) r)
  | inr e => settle (onerror (event_target result) e)
  end.

(** [await p] *)
Definition await {S A} (p : Settled A) : Eff S A :=
  fun s =>
    match p with
    | Resolved a => (Normal a, s)
    | Rejected e => (Throw e, s)
    | Pending => (Suspended, s)
    end.

(** The promise of an [async] function whose body returns a promise. *)
Definition async {S A} (body : Eff S (Settled A)) : S -> Settled A * S :=
  fun s =>
    match body s with
    | (Normal p, s') => (p, s')
    | (Throw e, s') => (Rejected e, s')
    | (Suspended, s') => (Pending, s')
    end.

(** [!x] for an object [x]: objects are never falsy. *)
Definition not_object {A} (x : A) : bool := false.

Record AsyncStore := mkAsyncStore { _store : Settled (option Store) }.

Section AsyncStore.
Context `{Engine}.

(** [function createTables(this: IDBDatabase, tables: Tables)] *)
Definition createTables (tables : Tables) : Eff IDBDatabase unit :=
  fun this =>
    let hasUpdates :=
      forallb (fun table => negb (objectStoreNames_contains this table))
        (Object_keys tables) in
    if negb hasUpdates then (Normal tt, this)
    else
      let missingTables : Tables :=
        foldl (fun acc curr => <[curr := tables !!! curr]> acc) ∅
          (List.filter
             (fun table => negb (objectStoreNames_contains this table))
             (Object_keys tables)) in
      forEach (Object_entries missingTables) (fun '(tableName, tableOptions) =>
        table ← createObjectStore tableName;
        forEach (Object_entries tableOptions) (fun '(tableKey, options) =>
          createIndex table tableKey tableKey options)) this.

(** [store.onsuccess] *)
Definition store_onsuccess (tables : Tables) (target : unknown)
  : Eff IDBDatabase (handler_result (option Store)) :=
  if negb (isIDbRequest target) then throw new_NoDbFoundError
  else
    createTables tables;;
    mret (Resolve (Some (mkStore "react-with-use"))).

(** [event.target.result.onversionchange], as set by [store.onsuccess] *)
Definition db_onversionchange (tables : Tables) : Eff IDBDatabase unit :=
  createTables tables.

(** [store.onerror] *)
Definition store_onerror (target : unknown)
  : Eff IDBDatabase (handler_result (option Store)) :=
  if negb (isIDbRequest target) then throw new_NoDbFoundError
  else mret (Reject new_OpeningDbError).

(** [store.onblocked] *)
Definition store_onblocked (target : unknown)
  : Eff IDBDatabase (handler_result (option Store)) :=
  if negb (isIDbRequest target) then throw new_NoDbFoundError
  else mret (Reject new_OpeningDbError).

(** [store.onupgradeneeded] *)
Definition store_onupgradeneeded (tables : Tables) (target : unknown)
  : Eff IDBDatabase unit :=
  if negb (isIDbRequest target) then throw new_NoDbFoundError
  else createTables tables.

(** The promise state a callback of the open request leaves behind. *)
Definition fire {A} (handler : Eff IDBDatabase (handler_result A))
    (conn : IDBDatabase) : Settled A :=
  match handler conn with
  | (Normal r, _) => settle r
  | (_, _) => Pending
  end.

(** The versions [open] takes: 1 to 2^53 - 1. *)
Definition max_version : Z := 9007199254740991.

(** [_initializeStore(tables, dbVersion)]: the executor calls
    [indexedDB.open("react-with-use", dbVersion)] and sets the four
    callbacks; the engine then fires them.  [blocked] says whether another
    connection keeps an older version open when an upgrade is due: the
    promise is then rejected at the [blocked] event, and the result is the
    promise and the world at that event.  The request stays waiting;
    [blocker_closes] below is what it does when the other connection
    closes. *)
Definition _initializeStore (tables : Tables) (dbVersion : Z) (blocked : bool)
  : World -> Settled (option Store) * World :=
  fun w =>
    let target := Object IDBRequest_properties in
    if bool_decide (dbVersion <= 0 \/ max_version < dbVersion) then
      (* [open] throws inside the executor *)
      (Rejected new_TypeError, w)
    else if bool_decide (dbVersion < version (backing w)) then
      (fire (store_onerror target) (mkConnection (backing w) false), w)
    else if bool_decide (version (backing w) < dbVersion) then
      if blocked then
        (fire (store_onblocked target) (mkConnection (backing w) false), w)
      else
        match store_onupgradeneeded tables target
                (mkConnection
                   (mkDatabase dbVersion (objectStores (backing w))) true)
        with
        | (Normal _, upgraded) =>
            (* the upgrade transaction commits, then [success] *)
            (fire (store_onsuccess tables target)
               (mkConnection (contents upgraded) false),
             set_backing (contents upgraded) w)
        | (_, _) =>
            (* the upgrade transaction aborts, then [error] *)
            (fire (store_onerror target) (mkConnection (backing w) false), w)
        end
    else
      (fire (store_onsuccess tables target) (mkConnection (backing w) false),
       w).

(** Once the connection that blocked an [open] closes, the waiting request
    goes on as an [open] that is not blocked: the upgrade runs and the
    callbacks are fired.  The promise was rejected at the [blocked] event and
    a promise settles once, so only the world is of interest. *)
Definition blocker_closes (tables : Tables) (dbVersion : Z) : World -> World :=
  fun w => (_initializeStore tables dbVersion false w).2.

(** [constructor(tables, dbVersion)] *)
Definition new_AsyncStore (tables : Tables) (dbVersion : Z) (blocked : bool)
  : World -> AsyncStore * World :=
  fun w =>
    let '(p, w') := _initializeStore tables dbVersion blocked w in
    (mkAsyncStore p, w').

(** [async _getTable(table)] *)
Definition _getTable (this : AsyncStore) (table : string)
  : Eff World IDBObjectStore :=
  store ← (_store' ← await (_store this);
           match _store' with
           | None => throw new_NoDbFoundError
           | Some _store' => mret _store'
           end);
  transaction ← IDBDatabase_transaction table readwrite;
  if not_object transaction then throw (new_BaseError "No transaction found.")
  else
    objectStore ← IDBTransaction_objectStore transaction table;
    if not_object objectStore then
      throw (new_BaseError "No createObjectStore found.")
    else mret objectStore.

(** The five methods.  Each makes one request; [fault] is what the engine
    does with it, see [served].  The methods under their own names, further
    down, are the methods on an engine that serves the request. *)

(** [async get(_table, resourceId)] *)
Definition get_with (fault : option string) (this : AsyncStore)
    (_table : string) (resourceId : IDBValidKey)
  : World -> Settled (nullable resource) * World :=
  async (try_catch
    (table ← _getTable this _table;
     if not_object table then throw (new_BaseError "No createObjectStore found.")
     else
       result ← IDBObjectStore_get fault table resourceId;
       mret (new_Promise result
         (fun target error =>
            if negb (isIDbRequest target) then
              Throws (new_BaseError "failed getting db result.")
            else Reject error)
         (fun target result =>
            if negb (isIDbRequest target) then
              Throws (new_BaseError "failed getting db result.")
            else Resolve result)))
    (fun error =>
       if negb (instanceof error Error) then throw new_UnknownError
       else throw (new_BaseError ("Get query failed. " ++ toString error)))).

(** [async getAll(_table)] *)
Definition getAll_with (fault : option string) (this : AsyncStore)
    (_table : string)
  : World -> Settled (option (list resource)) * World :=
  async (try_catch
    (table ← _getTable this _table;
     if not_object table then throw (new_BaseError "No createObjectStore found.")
     else
       result ← IDBObjectStore_getAll fault table;
       mret (new_Promise result
         (fun target error =>
            if negb (isIDbRequest target) then
              Throws (new_BaseError "failed getting db result.")
            else Reject error)
         (fun target result =>
            if negb (isIDbRequest target) then
              Throws (new_BaseError "failed getting db result.")
            else Resolve result)))
    (fun error =>
       throw (new_BaseError ("GetAll query failed. " ++ toString error)))).

(** [async create(_table, resource)] *)
Definition create_with (fault : option string) (this : AsyncStore)
    (_table : string) (resource : resource)
  : World -> Settled unit * World :=
  async (try_catch
    (table ← _getTable this _table;
     if not_object table then throw (new_BaseError "No createObjectStore found.")
     else
       result ← match resource !! "id" with
                | Some id => IDBObjectStore_add fault table resource id
                | None =>
                    uuid ← randomUUID;
                    IDBObjectStore_add fault table resource (PStr uuid)
                end;
       mret (new_Promise result
         (fun target error =>
            if negb (isIDbRequest target) then
              Throws (new_BaseError "failed getting db result.")
            else Reject error)
         (fun target _ =>
            if negb (isIDbRequest target) then
              Throws (new_BaseError "failed getting db result.")
            else Resolve tt)))
    (fun error => throw (new_BaseError "Create query failed."))).

(** [async update(_table, resource)] *)
Definition update_with (fault : option string) (this : AsyncStore)
    (_table : string) (resource : resource)
  : World -> Settled unit * World :=
  async (try_catch
    (table ← _getTable this _table;
     if not_object table then throw (new_BaseError "No createObjectStore found.")
     else
       uuid ← randomUUID;
       result ← IDBObjectStore_put fault table resource (PStr uuid);
       mret (new_Promise result
         (fun target error =>
            if negb (isIDbRequest target) then
              Throws (new_BaseError "failed getting db result.")
            else Reject error)
         (fun target _ =>
            if negb (isIDbRequest target) then Throws new_NoDbFoundError
            else Resolve tt)))
    (fun error => throw (new_BaseError "Update query failed."))).

(** [async delete(_table, resourceId)] *)
Definition delete_with (fault : option string) (this : AsyncStore)
    (_table : string) (resourceId : IDBValidKey)
  : World -> Settled unit * World :=
  async (try_catch
    (table ← _getTable this _table;
     if not_object table then throw (new_BaseError "No createObjectStore found.")
     else
       result ← IDBObjectStore_delete fault table resourceId;
       mret (new_Promise result
         (fun target error =>
            if negb (isIDbRequest target) then
              Throws (new_BaseError "failed getting db result.")
            else Reject error)
         (fun target _ =>
            if negb (isIDbRequest target) then Throws new_NoDbFoundError
            else Resolve tt)))
    (fun error => throw (new_Error "Get query failed."))).

(** The methods when the engine serves the request. *)
Definition get := get_with None.
Definition getAll := getAll_with None.
Definition create := create_with None.
Definition update := update_with None.
Definition delete_ := delete_with None.

End AsyncStore.

(** ** The application that uses the store

    The classes and callbacks of the to-do application built on
    [AsyncStore]: the adapter registered as "db", [TodoRepository],
    [TodosService] and the callbacks of [TodoUseCasesProvider]. *)

(** A call that returns a promise. *)
Abbreviation Async A := (World -> Settled A * World).

(** [!v] on a property value *)
Definition falsy (v : prim) : bool :=
  match v with
  | PUndefined | PNull | PBool false | PNum 0 | PStr "" => true
  | _ => false
  end.

(** [a === b] on property values *)
Definition strict_equal (a b : prim) : bool := bool_decide (a = b).

(** [item[name]]: [undefined] when the object has no such property. *)
Definition property (item : resource) (name : string) : prim :=
  default PUndefined (item !! name).

(** [{ id, ...resource }]: the properties of [resource] come last and win. *)
Definition spread_after_id (id : prim) (resource : resource)
  : gmap string prim :=
  resource ∪ {[ "id" := id ]}.

(** [await call()] inside an [async] function *)
Definition await_call {S A} (call : S -> Settled A * S) : Eff S A :=
  fun s => let '(p, s') := call s in await p s'.

(** The promise of an [async] function whose body returns a value. *)
Definition async_value {S A} (body : Eff S A) : S -> Settled A * S :=
  async (a ← body; mret (Resolved a)).

(** [promise.then(onFulfilled)], the callback returning a promise. *)
Definition then_ {S A B} (promise : S -> Settled A * S)
    (onFulfilled : A -> S -> Settled B * S) : S -> Settled B * S :=
  fun s =>
    match promise s with
    | (Resolved a, s') => onFulfilled a s'
    | (Rejected e, s') => (Rejected e, s')
    | (Pending, s') => (Pending, s')
    end.

(** [const tables = { todos: "todos" } as const] *)
Definition tables_todos : string := "todos".

(** [interface IStore] *)
Record IStore := mkIStore {
  IStore_get : string -> Async (nullable resource);
  IStore_getAll : Async (option (list resource));
  IStore_add : resource -> Async unit;
  IStore_update : resource -> Async unit;
  IStore_delete : string -> Async unit
}.

(** [class TodoRepository { private store }] *)
Record TodoRepository := mkTodoRepository { store : IStore }.

(** [class TodosService { private todoRepository }] *)
Record TodosService := mkTodosService { todoRepository : TodoRepository }.

(** The state [data] of [TodoUseCasesProvider], beside the world. *)
Record Page := mkPage {
  world : World;
  data : option (list resource)
}.

(** A call on the store, made from the page. *)
Definition in_world {A} (call : Async A) : Page -> Settled A * Page :=
  fun page =>
    let '(p, w) := call (world page) in (p, mkPage w (data page)).

(** [setData(todos)] *)
Definition setData (todos : option (list resource))
  : Page -> Settled unit * Page :=
  fun page => (Resolved tt, mkPage (world page) todos).

Section Application.
Context `{Engine}.

(** The object the factory registered as "db" returns, for the store
    [asyncStore] it has constructed. *)
Definition db_adapter (asyncStore : AsyncStore) : IStore := {|
  IStore_add := fun resource => create asyncStore tables_todos resource;
  IStore_get := fun resourceId => get asyncStore tables_todos (KStr resourceId);
  IStore_getAll := getAll asyncStore tables_todos;
  IStore_update := fun resource => update asyncStore tables_todos resource;
  IStore_delete :=
    fun resourceId => delete_ asyncStore tables_todos (KStr resourceId)
|}.

(** The factory registered as "db":
    [new AsyncStore({ todos: { id: { unique: true } } }, 5)]. *)
Definition db_factory (blocked : bool) : World -> IStore * World :=
  fun w =>
    let '(asyncStore, w') :=
      new_AsyncStore {[ "todos" := {[ "id" := mkIndexParameters true false ]} ]}
        5 blocked w in
    (db_adapter asyncStore, w').

(** [async getAll(filter?, value?)] of [TodoRepository]; an argument left
    out is [None], respectively [PUndefined]. *)
Definition TodoRepository_getAll (this : TodoRepository)
    (filter : option string) (value : prim) : Async (option (list resource)) :=
  async_value
    (list ← await_call (IStore_getAll (store this));
     match filter with
     | None | Some "" => mret list
     | Some filter =>
         if falsy value then mret list
         else
           mret (match list with
                 | Some list =>
                     Some (List.filter
                             (fun item => strict_equal (property item filter) value)
                             list)
                 | None => None
                 end)
     end).

Definition TodoRepository_get (this : TodoRepository) (resourceId : string)
  : Async (nullable resource) :=
  IStore_get (store this) resourceId.

Definition TodoRepository_create (this : TodoRepository) (resource : resource)
  : Async unit :=
  IStore_add (store this) resource.

Definition TodoRepository_update (this : TodoRepository) (id : prim)
    (resource : resource) : Async unit :=
  IStore_update (store this) (spread_after_id id resource).

Definition TodoRepository_delete (this : TodoRepository) (resourceId : string)
  : Async unit :=
  IStore_delete (store this) resourceId.

(** The methods of [TodosService] *)
Definition TodosService_create (this : TodosService) (resource : resource)
  : Async unit :=
  TodoRepository_create (todoRepository this) resource.

Definition TodosService_update (this : TodosService) (id : prim)
    (resource : resource) : Async unit :=
  TodoRepository_update (todoRepository this) id resource.

Definition TodosService_delete (this : TodosService) (resourceId : string)
  : Async unit :=
  TodoRepository_delete (todoRepository this) resourceId.

Definition TodosService_get (this : TodosService) (resourceId : string)
  : Async (nullable resource) :=
  TodoRepository_get (todoRepository this) resourceId.

Definition TodosService_getAll (this : TodosService)
  : Async (option (list resource)) :=
  TodoRepository_getAll (todoRepository this) None PUndefined.

(** The callbacks of [TodoUseCasesProvider] *)
Definition onCreate (service : TodosService) (todo : resource)
  : Page -> Settled unit * Page :=
  then_ (then_ (in_world (TodosService_create service todo))
               (fun _ => in_world (TodosService_getAll service)))
        (fun todos => setData todos).

Definition onUpdate (service : TodosService) (todo : resource)
  : Page -> Settled unit * Page :=
  then_ (then_ (in_world (TodosService_update service (property todo "id") todo))
               (fun _ => in_world (TodosService_getAll service)))
        (fun todos => setData todos).

Definition onDelete (service : TodosService) (todoId : string)
  : Page -> Settled unit * Page :=
  then_ (then_ (in_world (TodosService_delete service todoId))
               (fun _ => in_world (TodosService_getAll service)))
        (fun todos => setData todos).

Definition onGetTodos (service : TodosService)
  : Page -> Settled (option (list resource)) * Page :=
  in_world (TodosService_getAll service).

Definition onGetTodo (service : TodosService) (todoId : string)
  : Page -> Settled (nullable resource) * Page :=
  then_ (then_ (in_world (TodosService_get service todoId))
               (fun todo =>
                  async_value
                    (todos ← await_call (in_world (TodosService_getAll service));
                     mret (todos, todo))))
        (fun '(todos, todo) =>
           then_ (setData todos) (fun _ page => (Resolved todo, page))).

End Application.

(** ** Vocabulary of the statements *)

(** The handle [_getTable] gives on a table. *)
Definition table_handle (T : string) : IDBObjectStore :=
  mkHandle T (mkTransaction T readwrite).

(** Initialization succeeded: the promise [_store] holds a connection. *)
Definition connected (this : AsyncStore) : Prop :=
  exists s, _store this = Resolved (Some s).

(** The records of a table, when the table exists. *)
Definition table_records (w : World) (table : string)
  : option (gmap IDBValidKey resource) :=
  records <$> objectStores (backing w) !! table.

(** The key [create] hands to [add] for a record: its "id" when it has one
    (no key when that is not a valid key), else the next result of
    [randomUUID]. *)
Definition storage_key (resource : resource) (w : World) : option IDBValidKey :=
  match resource !! "id" with
  | Some id => to_key id
  | None => Some (KStr (uuids w (drawn w)))
  end.

(** The world once [create] has got its key: [randomUUID] has been called
    when the record has no "id". *)
Definition world_after_key (resource : resource) (w : World) : World :=
  match resource !! "id" with
  | Some _ => w
  | None => (randomUUID w).2
  end.

(** A table with one more record, the rest of the world as it is. *)
Definition with_record (T : string) (os : ObjectStore) (key : IDBValidKey)
    (value : resource) (w : World) : World :=
  set_backing
    (mkDatabase (version (backing w))
       (<[T := mkObjectStore (indexes os) (<[key := value]> (records os))]>
          (objectStores (backing w)))) w.

(** A connection inside its upgrade transaction. *)
Definition upgrading (v : Z) (stores : gmap string ObjectStore) : IDBDatabase :=
  mkConnection (mkDatabase v stores) true.

(** The store [createTables] makes for a declared table: the declared
    indexes, no records. *)
Definition declared_store (tableOptions : gmap string IDBIndexParameters)
  : ObjectStore :=
  mkObjectStore tableOptions ∅.

(** A call draws one result from [crypto.randomUUID]. *)
Definition generates_random_key {A} (call : World -> A * World) (w : World)
  : Prop :=
  drawn (call w).2 = S (drawn w).

(** The error a call fails with, if it fails. *)
Definition failure {A} (r : Settled A * World) : option JsError :=
  match r.1 with
  | Rejected e => Some e
  | _ => None
  end.

(** The records of a table as [getAll] lists them. *)
Definition listing (recs : gmap IDBValidKey resource) : list resource :=
  (merge_sort (fun a b => key_le a.1 b.1) (map_to_list recs)).*2.

(** Two worlds that differ at most in the records of table [T]: the same
    version, the same tables with the same indexes, and every other table
    with the same records. *)
Definition same_schema_except (T : string) (w w' : World) : Prop :=
  version (backing w') = version (backing w) /\
  forall T',
    indexes <$> objectStores (backing w') !! T'
    = indexes <$> objectStores (backing w) !! T' /\
    (T' <> T ->
     objectStores (backing w') !! T' = objectStores (backing w) !! T').

(** The service the application gets for a store: [TodosService] over
    [TodoRepository] over the "db" object. *)
Definition todoService_of `{Engine} (asyncStore : AsyncStore) : TodosService :=
  mkTodosService (mkTodoRepository (db_adapter asyncStore)).

(** ** A concrete engine and concrete data, for the examples *)

Definition identifier_start (c : Ascii.ascii) : bool :=
  ((Ascii.leb "a" c && Ascii.leb c "z") || (Ascii.leb "A" c && Ascii.leb c "Z")
   || Ascii.eqb c "_" || Ascii.eqb c "$")%char.

Definition identifier_part (c : Ascii.ascii) : bool :=
  identifier_start c || (Ascii.leb "0" c && Ascii.leb c "9")%char.

Definition identifier (s : string) : bool :=
  match s with
  | EmptyString => false
  | String c rest =>
      identifier_start c && forallb identifier_part (String.list_ascii_of_string rest)
  end.

(** Texts as Chromium words them, for the exceptions the examples meet;
    where it has several texts for one name, this is one of them. *)
Definition chromium_text (name : string) : string :=
  if String.eqb name "NotFoundError" then
    "Failed to execute 'transaction' on 'IDBDatabase': One of the specified object stores was not found."
  else if String.eqb name "ConstraintError" then
    "Key already exists in the object store."
  else if String.eqb name "DataError" then
    "Failed to execute 'add' on 'IDBObjectStore': The parameter is not a valid key."
  else if String.eqb name "InvalidStateError" then
    "Failed to execute 'createObjectStore' on 'IDBDatabase': The database is not running a version change transaction."
  else "".

(** An engine for the examples: key paths that are one identifier, the path
    reading that property, and the texts above. *)
Definition identifier_paths : Engine := {|
  valid_key_path := identifier;
  evaluate_key_path := fun keyPath value => value !! keyPath ≫= to_key;
  exception_text := chromium_text
|}.

(** [crypto.randomUUID] answering "uuid-0", "uuid-1", ... *)
Definition uuid_sequence (n : nat) : string := "uuid-" ++ pretty n.

(** The schema of the application: [{ todos: { id: { unique: true } } }]. *)
Definition todos_schema : Tables :=
  {[ "todos" := {[ "id" := mkIndexParameters true false ]} ]}.

Definition todo (id title : string) : resource :=
  {[ "id" := PStr id; "title" := PStr title ]}.

Definition no_database : Database := mkDatabase 0 ∅.

Definition fresh_world : World := mkWorld no_database uuid_sequence 0.

(** The store of the application, opened on a browser that has no database
    yet, and the world it leaves. *)
Definition app_store : AsyncStore :=
  (@new_AsyncStore identifier_paths todos_schema 5 false fresh_world).1.

Definition opened_world : World :=
  (@new_AsyncStore identifier_paths todos_schema 5 false fresh_world).2.

Definition todos_indexes : gmap string IDBIndexParameters :=
  {[ "id" := mkIndexParameters true false ]}.

Definition milk : resource := todo "u1" "Buy milk".

(** The world after [create("todos", milk)]. *)
Definition world_with_milk : World :=
  (@create identifier_paths app_store "todos" milk opened_world).2.

(** The same with a schema that declares no index: [{ todos: {} }]. *)
Definition plain_schema : Tables := {[ "todos" := ∅ ]}.

Definition plain_store : AsyncStore :=
  (@new_AsyncStore identifier_paths plain_schema 5 false fresh_world).1.

Definition plain_world_with_milk : World :=
  (@create identifier_paths plain_store "todos" milk
     (@new_AsyncStore identifier_paths plain_schema 5 false fresh_world).2).2.

(** A migration: the schema of the application with a table "users" added,
    to be opened with version 6 on the database of version 5. *)
Definition migrated_schema : Tables :=
  {[ "todos" := {[ "id" := mkIndexParameters true false ]};
     "users" := {[ "email" := mkIndexParameters true false ]} ]}.

(** More concrete data: a second to-do with the id of the first, the
    tables of the examples, stores whose initialization did not succeed, a
    database at version 5 without tables, a table with a unique index on
    "title", and pages of the application. *)
Definition bread : resource := todo "u1" "Buy bread".

Definition empty_todos : ObjectStore := mkObjectStore todos_indexes ∅.

Definition milk_todos : ObjectStore :=
  mkObjectStore todos_indexes {[ KStr "u1" := milk ]}.

Definition pending_store : AsyncStore := mkAsyncStore Pending.

Definition failed_store : AsyncStore :=
  mkAsyncStore (Rejected new_OpeningDbError).

Definition emptied_world : World :=
  mkWorld (mkDatabase 5 ∅) uuid_sequence 0.

Definition titled_todos : ObjectStore :=
  mkObjectStore {[ "title" := mkIndexParameters true false ]}
    {[ KStr "u1" := milk ]}.

Definition titled_world : World :=
  mkWorld (mkDatabase 5 {[ "todos" := titled_todos ]}) uuid_sequence 0.

(** A store whose schema declares a unique index on "title",
    [{ todos: { title: { unique: true } } }], opened on a browser without
    database, and the world after [create("todos", milk)]. *)
Definition titled_schema : Tables :=
  {[ "todos" := {[ "title" := mkIndexParameters true false ]} ]}.

Definition titled_store : AsyncStore :=
  (@new_AsyncStore identifier_paths titled_schema 5 false fresh_world).1.

Definition titled_world_with_milk : World :=
  (@create identifier_paths titled_store "todos" milk
     (@new_AsyncStore identifier_paths titled_schema 5 false fresh_world).2).2.

Definition no_key : resource := {[ "id" := PNull; "title" := PStr "Buy milk" ]}.

Definition app_repository : TodoRepository :=
  mkTodoRepository (@db_adapter identifier_paths app_store).

Definition app_service : TodosService :=
  @todoService_of identifier_paths app_store.

Definition opened_page : Page := mkPage opened_world None.

Definition milk_page : Page := mkPage world_with_milk None.

(** ** Properties of the operations *)

Ltac eff :=
  unfold mbind, Eff_bind, mret, Eff_ret, throw, await, async, try_catch, modify.

Section Properties.
Context `{Engine}.

(** With a connection and an existing table, [_getTable] hands out the
    table and touches nothing. *)
Lemma _getTable_connected this T w os :
  connected this -> objectStores (backing w) !! T = Some os ->
  _getTable this T w = (Normal (table_handle T), w).
Proof.
  intros [s Hs] Ht.
  unfold _getTable, IDBDatabase_transaction, IDBTransaction_objectStore.
  eff. rewrite Hs, Ht. simpl. by rewrite bool_decide_eq_true_2.
Qed.

(** [_getTable] never changes the world, however it ends. *)
Lemma _getTable_frame this T w : (_getTable this T w).2 = w.
Proof.
  unfold _getTable, IDBDatabase_transaction, IDBTransaction_objectStore. eff.
  destruct (_store this) as [[s|]| |]; simpl; try done.
  destruct (objectStores (backing w) !! T); simpl; try done.
  by rewrite bool_decide_eq_true_2.
Qed.

(** When [_getTable] returns a table, it is the one asked for and it
    exists. *)
Lemma _getTable_Normal this T w t w' :
  _getTable this T w = (Normal t, w') ->
  t = table_handle T /\ w' = w /\ connected this /\
  is_Some (objectStores (backing w) !! T).
Proof.
  unfold _getTable, IDBDatabase_transaction, IDBTransaction_objectStore,
    connected. eff.
  destruct (_store this) as [[s|]| |]; simpl; try done.
  destruct (objectStores (backing w) !! T) eqn:Ht; simpl; try done.
  rewrite bool_decide_eq_true_2 by done. intros [= <- <-]. eauto.
Qed.

Lemma get_frame this T k w : (get this T k w).2 = w.
Proof.
  unfold get, get_with. eff.
  pose proof (_getTable_frame this T w) as Hf.
  destruct (_getTable this T w) as [[t|e|] w'] eqn:E; simpl in *; subst.
  - unfold IDBObjectStore_get, store_of. eff.
    by destruct (objectStores (backing w) !! store_name t).
  - by destruct (negb _).
  - done.
Qed.

Lemma getAll_frame this T w : (getAll this T w).2 = w.
Proof.
  unfold getAll, getAll_with. eff.
  pose proof (_getTable_frame this T w) as Hf.
  destruct (_getTable this T w) as [[t|e|] w'] eqn:E; simpl in *; subst.
  - unfold IDBObjectStore_getAll, store_of. eff.
    by destruct (objectStores (backing w) !! store_name t).
  - done.
  - done.
Qed.

(** C10: [get] and [getAll] leave the world, and so the contents of every
    table, exactly as they found it, whatever the state of the store, the
    table and the key: a point lookup and a full scan are all they ask of
    the engine, although the transaction [_getTable] opens for them is a
    [readwrite] one. *)
Theorem reads_change_nothing this T k w :
  (get this T k w).2 = w /\ (getAll this T w).2 = w.
Proof. split; [apply get_frame | apply getAll_frame]. Qed.

(** What [get] answers on an existing table. *)
Lemma get_connected this T k w os :
  connected this -> objectStores (backing w) !! T = Some os ->
  get this T k w = (Resolved (found (records os !! k)), w).
Proof.
  intros Hc Ht. unfold get, get_with. eff.
  rewrite (_getTable_connected _ _ _ _ Hc Ht). unfold table_handle. simpl.
  unfold IDBObjectStore_get, store_of. eff. simpl. by rewrite Ht.
Qed.


(** C9: on a table that holds no records, as every table is when it has
    just been created, [getAll] resolves with the empty sequence, which is
    a value ([Some []]) and not the absent result. *)
Theorem getAll_empty_table this T w os :
  connected this ->
  objectStores (backing w) !! T = Some os ->
  records os = ∅ ->
  getAll this T w = (Resolved (Some []), w).
Proof.
  intros Hc Ht He. unfold getAll, getAll_with. eff.
  rewrite (_getTable_connected _ _ _ _ Hc Ht). unfold table_handle. simpl.
  unfold IDBObjectStore_getAll, store_of. eff.
  simpl. by rewrite Ht, He, map_to_list_empty.
Qed.

(** What [delete] does on an existing table. *)
Lemma delete_connected this T k w os :
  connected this -> objectStores (backing w) !! T = Some os ->
  delete_ this T k w =
    (Resolved tt,
     set_backing
       (mkDatabase (version (backing w))
          (<[T := mkObjectStore (indexes os) (delete k (records os))]>
             (objectStores (backing w)))) w).
Proof.
  intros Hc Ht. unfold delete_, delete_with. eff.
  rewrite (_getTable_connected _ _ _ _ Hc Ht). unfold table_handle. simpl.
  unfold IDBObjectStore_delete, writable, store_of, write_store. eff. simpl. by rewrite Ht.
Qed.

(** C8: on an existing table, [delete] resolves (with no value) whether or
    not the key holds a record, the key holds none afterwards, and a second
    [delete] of the same key right after the first resolves too and
    changes nothing. *)
Theorem delete_twice this T k w os :
  connected this ->
  objectStores (backing w) !! T = Some os ->
  let w1 := (delete_ this T k w).2 in
  (delete_ this T k w).1 = Resolved tt /\
  table_records w1 T = Some (delete k (records os)) /\
  delete_ this T k w1 = (Resolved tt, w1).
Proof.
  intros Hc Ht. rewrite (delete_connected _ _ _ _ _ Hc Ht). simpl.
  split; [done|]. split.
  - unfold table_records. simpl. by rewrite lookup_insert_eq.
  - erewrite delete_connected; [|done|simpl; apply lookup_insert_eq].
    simpl. unfold set_backing. simpl.
    by rewrite insert_insert_eq, delete_delete_eq.
Qed.

(** What [create] does on an existing table, once the key is known. *)
Lemma create_connected this T R w os key :
  connected this -> objectStores (backing w) !! T = Some os ->
  storage_key R w = Some key ->
  create this T R w =
    if bool_decide (is_Some (records os !! key)) then
      (Rejected (new_DOMException "ConstraintError"), world_after_key R w)
    else if bool_decide (violates_unique os key R) then
      (Rejected (new_DOMException "ConstraintError"), world_after_key R w)
    else (Resolved tt, with_record T os key R (world_after_key R w)).
Proof.
  intros Hc Ht Hk. unfold create, create_with. eff.
  rewrite (_getTable_connected _ _ _ _ Hc Ht). unfold table_handle. simpl.
  unfold storage_key, world_after_key in *.
  destruct (R !! "id") as [id|] eqn:Hid.
  - unfold IDBObjectStore_add, writable, store_of, write_store. rewrite Hk. eff.
    simpl. rewrite Ht. by repeat case_bool_decide.
  - injection Hk as <-. unfold randomUUID at 1. simpl.
    unfold IDBObjectStore_add, writable, store_of, write_store. eff. simpl.
    simpl. rewrite Ht. by repeat case_bool_decide.
Qed.

(** The conditions under which [create] resolves are exactly those: a
    connection, an existing table, a valid key that is free, and no clash on
    a unique index. *)
Lemma create_Resolved this T R w :
  (create this T R w).1 = Resolved tt ->
  exists os key,
    connected this /\ objectStores (backing w) !! T = Some os /\
    storage_key R w = Some key /\ records os !! key = None /\
    ~ violates_unique os key R.
Proof.
  intros Hr. destruct (_getTable this T w) as [[t|e|] w'] eqn:E.
  - apply _getTable_Normal in E as (-> & -> & Hc & [os Ht]). exists os.
    destruct (storage_key R w) as [key|] eqn:Hk.
    + exists key. rewrite (create_connected _ _ _ _ _ _ Hc Ht Hk) in Hr.
      repeat case_bool_decide; simpl in Hr; try done.
      repeat split; try done. by apply eq_None_not_Some.
    + exfalso. unfold storage_key in Hk.
      destruct (R !! "id") as [id|] eqn:Hid; [|done].
      revert Hr. unfold create, create_with. eff.
      rewrite (_getTable_connected _ _ _ _ Hc Ht). unfold table_handle. simpl.
      rewrite Hid. unfold IDBObjectStore_add, writable. eff. simpl.
      by rewrite Hk.
  - revert Hr. unfold create, create_with. eff. by rewrite E.
  - revert Hr. unfold create, create_with. eff. by rewrite E.
Qed.

(** C3, as the code has it: on an existing table, for a record whose key
    (its "id" when it has one, else the key [randomUUID] hands out) is a
    valid key that holds no record, and that clashes with no stored record
    on a unique index,
    [create] resolves and stores the record under that key, and a [get]
    with that key right after resolves with that same record. *)
Theorem create_get_roundtrip this T R w os key :
  connected this ->
  objectStores (backing w) !! T = Some os ->
  storage_key R w = Some key ->
  records os !! key = None ->
  ~ violates_unique os key R ->
  let w1 := (create this T R w).2 in
  (create this T R w).1 = Resolved tt /\
  (forall id, R !! "id" = Some id -> to_key id = Some key) /\
  (R !! "id" = None -> key = KStr (uuids w (drawn w))) /\
  table_records w1 T = Some (<[key := R]> (records os)) /\
  get this T key w1 = (Resolved (present R), w1).
Proof.
  intros Hc Ht Hk Hfree Hu.
  rewrite (create_connected _ _ _ _ _ _ Hc Ht Hk).
  rewrite bool_decide_eq_false_2 by (rewrite Hfree; by intros [? ?]).
  rewrite bool_decide_eq_false_2 by done. simpl.
  unfold storage_key in Hk.
  split; [done|]. split; [by intros id Hid; rewrite Hid in Hk|].
  split; [by intros Hid; rewrite Hid in Hk; injection Hk|].
  assert (objectStores (backing (with_record T os key R (world_after_key R w)))
            !! T = Some (mkObjectStore (indexes os) (<[key := R]> (records os))))
    as Ht' by (simpl; apply lookup_insert_eq).
  split.
  - unfold table_records. by rewrite Ht'.
  - rewrite (get_connected _ _ _ _ _ Hc Ht'). simpl.
    by rewrite lookup_insert_eq.
Qed.

(** C7: on an existing table, when the key of the record (its "id", or the
    key [randomUUID] hands out) already holds a record, [create] rejects,
    with the engine's ConstraintError, and every table is left as it
    was: nothing is overwritten. *)
Theorem create_duplicate_key this T R w os key old :
  connected this ->
  objectStores (backing w) !! T = Some os ->
  storage_key R w = Some key ->
  records os !! key = Some old ->
  (create this T R w).1 = Rejected (new_DOMException "ConstraintError") /\
  backing (create this T R w).2 = backing w /\
  table_records (create this T R w).2 T = Some (records os).
Proof.
  intros Hc Ht Hk Hold.
  rewrite (create_connected _ _ _ _ _ _ Hc Ht Hk).
  rewrite bool_decide_eq_true_2 by (rewrite Hold; eauto). simpl.
  assert (backing (world_after_key R w) = backing w) as Hb
    by (unfold world_after_key; by destruct (R !! "id")).
  split; [done|]. split; [done|].
  unfold table_records. by rewrite Hb, Ht.
Qed.

(** What [update] does on an existing table: the key is the one
    [randomUUID] hands out, whatever "id" the record carries. *)
Lemma update_connected this T p w os :
  connected this -> objectStores (backing w) !! T = Some os ->
  update this T p w =
    let u := KStr (uuids w (drawn w)) in
    if bool_decide (violates_unique os u p) then
      (Rejected (new_DOMException "ConstraintError"), (randomUUID w).2)
    else (Resolved tt, with_record T os u p (randomUUID w).2).
Proof.
  intros Hc Ht. unfold update, update_with. eff.
  rewrite (_getTable_connected _ _ _ _ Hc Ht). unfold table_handle. simpl.
  unfold IDBObjectStore_put, writable, store_of, write_store. eff. simpl.
  simpl. rewrite Ht. by case_bool_decide.
Qed.

(** [update] leaves the record stored at the "id" of its argument as it
    is, unless [randomUUID] happens to hand out that very key. *)
Lemma update_keeps_record_at_id this T p w os k old :
  connected this -> objectStores (backing w) !! T = Some os ->
  records os !! k = Some old ->
  KStr (uuids w (drawn w)) <> k ->
  exists m, table_records (update this T p w).2 T = Some m /\
            m !! k = Some old.
Proof.
  intros Hc Ht Hold Hne. rewrite (update_connected _ _ _ _ _ Hc Ht). simpl.
  unfold table_records. case_bool_decide; simpl.
  - rewrite Ht. eauto.
  - rewrite lookup_insert_eq. simpl. eexists; split; [done|].
    by rewrite lookup_insert_ne.
Qed.

(** C4, as the code has it: on an existing table, every call of [update]
    draws one key from [randomUUID] and hands that key to [put], so that a
    successful [update] stores its argument under the drawn key and a
    refused one stores nothing; [delete] draws no key and removes the
    record at the key it was given. *)
Theorem update_draws_key_delete_draws_none this T p k w os :
  connected this ->
  objectStores (backing w) !! T = Some os ->
  let u := KStr (uuids w (drawn w)) in
  generates_random_key (update this T p) w /\
  ((update this T p w).1 = Resolved tt ->
   table_records (update this T p w).2 T = Some (<[u := p]> (records os))) /\
  ((update this T p w).1 <> Resolved tt ->
   backing (update this T p w).2 = backing w) /\
  drawn (delete_ this T k w).2 = drawn w /\
  table_records (delete_ this T k w).2 T = Some (delete k (records os)).
Proof.
  intros Hc Ht u. unfold generates_random_key.
  rewrite (update_connected _ _ _ _ _ Hc Ht), (delete_connected _ _ _ _ _ Hc Ht).
  fold u. unfold table_records. case_bool_decide; simpl;
    repeat split; try done; rewrite ?lookup_insert_eq; done.
Qed.

(** A request made by the engine passes the guard of the callbacks. *)
Lemma isIDbRequest_request : isIDbRequest (Object IDBRequest_properties) = true.
Proof. by apply bool_decide_eq_true_2; set_solver. Qed.

(** The callbacks of the open request that reject do so with
    [OpeningDbError]; [onsuccess] never rejects. *)
Lemma fire_onerror conn :
  fire (store_onerror (Object IDBRequest_properties)) conn
  = Rejected new_OpeningDbError.
Proof. unfold fire, store_onerror. by rewrite isIDbRequest_request. Qed.

Lemma fire_onblocked conn :
  fire (store_onblocked (Object IDBRequest_properties)) conn
  = Rejected new_OpeningDbError.
Proof. unfold fire, store_onblocked. by rewrite isIDbRequest_request. Qed.

Lemma fire_onsuccess tables conn :
  fire (store_onsuccess tables (Object IDBRequest_properties)) conn
  = match createTables tables conn with
    | (Normal _, _) => Resolved (Some (mkStore "react-with-use"))
    | _ => Pending
    end.
Proof.
  unfold fire, store_onsuccess. rewrite isIDbRequest_request. simpl. eff.
  by destruct (createTables tables conn) as [[| |] ?].
Qed.

(** With a version the engine accepts, a failed initialization is an
    [OpeningDbError]. *)
Lemma _initializeStore_rejects tables dbVersion blocked w e :
  0 < dbVersion <= max_version ->
  (_initializeStore tables dbVersion blocked w).1 = Rejected e ->
  e = new_OpeningDbError.
Proof.
  intros Hv. unfold _initializeStore.
  rewrite bool_decide_eq_false_2 by lia.
  repeat case_bool_decide; simpl.
  - rewrite fire_onerror. by intros [= <-].
  - destruct blocked; simpl.
    + rewrite fire_onblocked. by intros [= <-].
    + destruct (store_onupgradeneeded _ _ _) as [[| |] ?]; simpl;
        rewrite ?fire_onerror, ?fire_onsuccess; try by intros [= <-].
      by destruct (createTables _ _) as [[| |] ?].
  - rewrite fire_onsuccess. by destruct (createTables _ _) as [[| |] ?].
Qed.

(** A [DOMException] is no [BaseError]. *)
Lemma DOMException_not_BaseError name :
  instanceof (new_DOMException name) BaseError = false.
Proof. reflexivity. Qed.

(** What is thrown before the request settles ends in the [catch] of the
    method, which throws a [BaseError]; what the engine fires at the request
    is handed to [reject] as it is.  For [get] and [getAll] the engine fires
    [error] only when it cannot serve the request. *)
Lemma get_failure fault this T k w e :
  failure (get_with fault this T k w) = Some e ->
  instanceof e BaseError = true \/
  exists name, fault = Some name /\ e = new_DOMException name.
Proof.
  unfold failure, get_with. eff.
  destruct (_getTable this T w) as [[t|e0|] w'] eqn:E; simpl.
  - apply _getTable_Normal in E as (-> & -> & Hc & [os Ht]).
    unfold table_handle.
    unfold IDBObjectStore_get, served, store_of. eff. simpl. rewrite Ht.
    destruct fault as [name|]; simpl; [|done]. intros [= <-]. eauto.
  - destruct (negb (instanceof e0 Error)); simpl; intros [= <-]; by left.
  - done.
Qed.

Lemma getAll_failure fault this T w e :
  failure (getAll_with fault this T w) = Some e ->
  instanceof e BaseError = true \/
  exists name, fault = Some name /\ e = new_DOMException name.
Proof.
  unfold failure, getAll_with. eff.
  destruct (_getTable this T w) as [[t|e0|] w'] eqn:E; simpl.
  - apply _getTable_Normal in E as (-> & -> & Hc & [os Ht]).
    unfold table_handle.
    unfold IDBObjectStore_getAll, served, store_of. eff. simpl. rewrite Ht.
    destruct fault as [name|]; simpl; [|done]. intros [= <-]. eauto.
  - intros [= <-]. by left.
  - done.
Qed.

(** For [create] and [update] the engine fires [error] also when it refuses
    the record, with its ConstraintError. *)
Lemma create_failure fault this T R w e :
  failure (create_with fault this T R w) = Some e ->
  instanceof e BaseError = true \/
  (exists name, fault = Some name /\ e = new_DOMException name) \/
  e = new_DOMException "ConstraintError".
Proof.
  unfold failure, create_with. eff.
  destruct (_getTable this T w) as [[t|e0|] w'] eqn:E; simpl.
  - apply _getTable_Normal in E as (-> & -> & Hc & [os Ht]).
    unfold table_handle.
    destruct (R !! "id") as [id|]; unfold IDBObjectStore_add.
    + destruct (to_key id) as [key|]; simpl.
      * unfold writable, served, store_of, write_store. eff. simpl. rewrite Ht.
        destruct fault as [name|]; simpl; [intros [= <-]; eauto|].
        repeat case_bool_decide; simpl; try done; intros [= <-]; eauto.
      * intros [= <-]. by left.
    + unfold randomUUID, writable, served, store_of, write_store. eff. simpl.
      rewrite Ht.
      destruct fault as [name|]; simpl; [intros [= <-]; eauto|].
      repeat case_bool_decide; simpl; try done; intros [= <-]; eauto.
  - intros [= <-]. by left.
  - done.
Qed.

Lemma update_failure fault this T p w e :
  failure (update_with fault this T p w) = Some e ->
  instanceof e BaseError = true \/
  (exists name, fault = Some name /\ e = new_DOMException name) \/
  e = new_DOMException "ConstraintError".
Proof.
  unfold failure, update_with. eff.
  destruct (_getTable this T w) as [[t|e0|] w'] eqn:E; simpl.
  - apply _getTable_Normal in E as (-> & -> & Hc & [os Ht]).
    unfold table_handle.
    unfold randomUUID, IDBObjectStore_put, writable, served, store_of,
      write_store. eff. simpl.
    rewrite Ht.
    destruct fault as [name|]; simpl; [intros [= <-]; eauto|].
    case_bool_decide; simpl; try done. intros [= <-]. eauto.
  - intros [= <-]. by left.
  - done.
Qed.

(** On an existing table, the error the engine fires at the request of
    [get] or [getAll] is what the method rejects with. *)
Lemma read_fault_handed_on name this T k w os :
  connected this -> objectStores (backing w) !! T = Some os ->
  get_with (Some name) this T k w = (Rejected (new_DOMException name), w) /\
  getAll_with (Some name) this T w = (Rejected (new_DOMException name), w).
Proof.
  intros Hc Ht. unfold get_with, getAll_with. eff.
  rewrite (_getTable_connected _ _ _ _ Hc Ht). unfold table_handle. simpl.
  unfold IDBObjectStore_get, IDBObjectStore_getAll, served, store_of. eff.
  simpl. by rewrite Ht.
Qed.

(** C5, as the code has it: with a version the engine accepts, a failed
    initialization is an [OpeningDbError], a [BaseError]; a failure of [get],
    [getAll], [create] or [update] is an instance of [BaseError] when it is
    thrown before the request settles, and otherwise it is the engine's own
    error of the request, handed on as it is and no [BaseError]: the error
    the engine fails the request with, or for [create] and [update] its
    ConstraintError.  On an existing table an engine error at the request of
    [get] or [getAll] does come out of the method unchanged. *)
Theorem failures_by_kind tables dbVersion blocked w0 fault this T k R p w e :
  (0 < dbVersion <= max_version ->
   (_initializeStore tables dbVersion blocked w0).1 = Rejected e ->
   e = new_OpeningDbError /\ instanceof e BaseError = true) /\
  (failure (get_with fault this T k w) = Some e \/
   failure (getAll_with fault this T w) = Some e ->
   instanceof e BaseError = true \/
   (instanceof e BaseError = false /\
    exists name, fault = Some name /\ e = new_DOMException name)) /\
  (failure (create_with fault this T R w) = Some e \/
   failure (update_with fault this T p w) = Some e ->
   instanceof e BaseError = true \/
   (instanceof e BaseError = false /\
    ((exists name, fault = Some name /\ e = new_DOMException name) \/
     e = new_DOMException "ConstraintError"))) /\
  (forall name os,
     connected this -> objectStores (backing w) !! T = Some os ->
     failure (get_with (Some name) this T k w) = Some (new_DOMException name) /\
     failure (getAll_with (Some name) this T w) = Some (new_DOMException name)).
Proof.
  split; [|split; [|split]].
  - intros Hv Hr. by rewrite (_initializeStore_rejects _ _ _ _ _ Hv Hr).
  - intros [Hf|Hf]; [apply get_failure in Hf|apply getAll_failure in Hf];
      destruct Hf as [?|(name & -> & ->)]; eauto 6.
  - intros [Hf|Hf]; [apply create_failure in Hf|apply update_failure in Hf];
      destruct Hf as [?|[(name & -> & ->)| ->]]; eauto 8.
  - intros name os Hc Ht.
    destruct (read_fault_handed_on name this T k w os Hc Ht) as [Hg Ha].
    unfold failure. by rewrite Hg, Ha.
Qed.

(** *** Schema creation *)

(** A declared table is among the keys of the schema. *)
Lemma elem_of_Object_keys {A} (o : gmap string A) t :
  t ∈ Object_keys o <-> is_Some (o !! t).
Proof.
  unfold Object_keys. rewrite list_elem_of_fmap. split.
  - intros ([t' x] & -> & Hx). apply elem_of_map_to_list in Hx. eauto.
  - intros [x Hx]. exists (t, x). by rewrite elem_of_map_to_list.
Qed.

(** As soon as one declared table exists, [createTables] returns at its
    guard: it creates nothing, whatever else the schema declares. *)
Lemma createTables_some_present tables this t :
  is_Some (tables !! t) ->
  is_Some (objectStores (contents this) !! t) ->
  createTables tables this = (Normal tt, this).
Proof.
  intros Hd Hp. unfold createTables.
  destruct (forallb _ (Object_keys tables)) eqn:E; [|done].
  rewrite forallb_forall in E.
  specialize (E t). rewrite <- list_elem_of_In, elem_of_Object_keys in E.
  specialize (E Hd). unfold objectStoreNames_contains in E.
  by rewrite bool_decide_eq_true_2 in E.
Qed.

(** A property of the state kept by every step is kept by [forEach],
    also when it ends in a throw. *)
Lemma forEach_invariant {S A} (P : S -> Prop) (f : A -> Eff S unit) xs s :
  (forall x s, P s -> P (f x s).2) -> P s -> P (forEach xs f s).2.
Proof.
  intros Hf. revert s. induction xs as [|x xs IH]; intros s Hs; [done|].
  simpl. eff. specialize (Hf x s Hs).
  destruct (f x s) as [[[]|e|] s']; simpl in *; auto.
Qed.

(** [createTables] never touches a table that exists: tables present are
    neither recreated nor altered, whether it ends normally or by a throw. *)
Lemma createTables_keeps_existing tables this t os :
  objectStores (contents this) !! t = Some os ->
  objectStores (contents (createTables tables this).2) !! t = Some os.
Proof.
  intros Ht. unfold createTables.
  destruct (negb _); [done|].
  apply (forEach_invariant
           (fun db => objectStores (contents db) !! t = Some os)); [|done].
  clear Ht. intros [tableName tableOptions] db Ht. eff.
  unfold createObjectStore at 1.
  destruct (negb (upgrade_transaction db)); [done|].
  case_bool_decide as Hn; [done|].
  assert (tableName <> t) as Hne by (intros ->; rewrite Ht in Hn; eauto).
  apply (forEach_invariant
           (fun db => objectStores (contents db) !! t = Some os)).
  - intros [tableKey options] db' Ht'. unfold createIndex.
    destruct (negb (valid_key_path tableKey)); [done|].
    destruct (objectStores (contents db') !! tableName); [|done].
    destruct (negb (upgrade_transaction db')); [done|].
    case_bool_decide; [done|]. simpl. by rewrite lookup_insert_ne.
  - simpl. by rewrite lookup_insert_ne.
Qed.

(** The indexes of a new table: all those declared are created. *)
Lemma createIndexes_fresh table v (l : list (string * IDBIndexParameters)) :
  forall stores idx recs,
  NoDup l.*1 ->
  (forall n o, (n, o) ∈ l -> valid_key_path n = true) ->
  stores !! table = Some (mkObjectStore idx recs) ->
  (forall n, n ∈ l.*1 -> idx !! n = None) ->
  forEach l (fun '(tableKey, options) =>
    createIndex table tableKey tableKey options) (upgrading v stores)
  = (Normal tt,
     upgrading v (<[table := mkObjectStore (list_to_map l ∪ idx) recs]> stores)).
Proof.
  induction l as [|[n o] l IH]; intros stores idx recs Hnd Hvalid Ht Hfresh.
  - simpl. unfold mret, Eff_ret.
    by rewrite (left_id_L ∅ (∪)), insert_id.
  - rewrite fmap_cons in Hnd, Hfresh. apply NoDup_cons in Hnd as [Hn Hnd].
    simpl in Hn. simpl forEach. eff. unfold createIndex at 1. simpl.
    rewrite (Hvalid n o) by set_solver. simpl. rewrite Ht. simpl.
    rewrite bool_decide_eq_false_2
      by (rewrite (Hfresh n) by set_solver; by intros [? ?]).
    fold (upgrading v
            (<[table := mkObjectStore (<[n := o]> idx) recs]> stores)).
    rewrite (IH _ (<[n := o]> idx) recs Hnd).
    + rewrite insert_insert_eq. do 4 f_equal.
      rewrite <- insert_union_l. symmetry. apply insert_union_r.
      by apply not_elem_of_list_to_map_1.
    + intros n' o' Hin. apply (Hvalid n' o'). set_solver.
    + apply lookup_insert_eq.
    + intros n' Hin.
      assert (n <> n') as Hne by (intros Heq; apply Hn; by rewrite Heq).
      rewrite (lookup_insert_ne _ _ _ _ Hne). apply Hfresh. by right.
Qed.

(** The loop of [createTables] over tables that are all absent creates
    every one of them with its declared indexes. *)
Lemma createTables_loop v (l : list (string * gmap string IDBIndexParameters)) :
  forall stores,
  NoDup l.*1 ->
  (forall t, t ∈ l.*1 -> stores !! t = None) ->
  (forall t idx n, (t, idx) ∈ l -> is_Some (idx !! n) -> valid_key_path n = true) ->
  forEach l (fun '(tableName, tableOptions) =>
    table ← createObjectStore tableName;
    forEach (Object_entries tableOptions) (fun '(tableKey, options) =>
      createIndex table tableKey tableKey options)) (upgrading v stores)
  = (Normal tt,
     upgrading v (list_to_map (prod_map id declared_store <$> l) ∪ stores)).
Proof.
  induction l as [|[t idx] l IH]; intros stores Hnd Hfresh Hvalid.
  - simpl. unfold mret, Eff_ret. by rewrite (left_id_L ∅ (∪)).
  - rewrite fmap_cons in Hnd, Hfresh. apply NoDup_cons in Hnd as [Hn Hnd].
    simpl in Hn. simpl forEach. eff. unfold createObjectStore at 1. simpl.
    rewrite bool_decide_eq_false_2
      by (rewrite (Hfresh t) by set_solver; by intros [? ?]).
    fold (upgrading v (<[t := mkObjectStore ∅ ∅]> stores)).
    unfold Object_entries.
    rewrite (createIndexes_fresh t v (map_to_list idx) _ ∅ ∅).
    + rewrite insert_insert_eq, list_to_map_to_list, (right_id_L ∅ (∪)).
      rewrite (IH (<[t := mkObjectStore idx ∅]> stores) Hnd).
      * do 2 f_equal. unfold declared_store at 2. simpl.
        rewrite <- insert_union_l. symmetry. apply insert_union_r.
        apply not_elem_of_list_to_map_1.
        assert ((prod_map id declared_store <$> l).*1 = l.*1) as ->; [|done].
        clear. induction l as [|[] ? IHl]; [done|].
        rewrite !fmap_cons. simpl. by rewrite IHl.
      * intros t' Hin.
        assert (t <> t') as Hne by (intros Heq; apply Hn; by rewrite Heq).
        rewrite (lookup_insert_ne _ _ _ _ Hne). apply Hfresh. by right.
      * intros t' idx' n Hin. apply (Hvalid t' idx' n). set_solver.
    + apply NoDup_fst_map_to_list.
    + intros n o Hin. apply (Hvalid t idx n); [set_solver|].
      apply elem_of_map_to_list in Hin. eauto.
    + apply lookup_insert_eq.
    + intros n _. apply lookup_empty.
Qed.

(** The object [missingTables] is the schema itself when no declared table
    exists. *)
Lemma foldl_insert_lookup (tables : Tables) (l : list string) :
  forall (acc : Tables) t,
  foldl (fun acc curr => <[curr := tables !!! curr]> acc) acc l !! t
  = if decide (t ∈ l) then Some (tables !!! t) else acc !! t.
Proof.
  induction l as [|k l IH]; intros acc t; cbn [foldl].
  - destruct (decide (t ∈ [])); [set_solver|done].
  - rewrite IH.
    destruct (decide (t ∈ l)) as [Hin|Hout],
             (decide (t ∈ k :: l)) as [Hin'|Hout']; try done.
    + destruct Hout'. by right.
    + apply elem_of_cons in Hin' as [->|Hin']; [apply lookup_insert_eq|done].
    + apply lookup_insert_ne. intros ->. destruct Hout'. by left.
Qed.

Lemma missingTables_all (tables : Tables) :
  foldl (fun acc curr => <[curr := tables !!! curr]> acc) ∅ (Object_keys tables)
  = tables.
Proof.
  apply map_eq. intros t. rewrite foldl_insert_lookup, lookup_empty.
  destruct (decide (t ∈ Object_keys tables)) as [Hin|Hout].
  - apply elem_of_Object_keys in Hin as [x Hx].
    by rewrite (lookup_total_correct _ _ _ Hx).
  - rewrite elem_of_Object_keys in Hout. symmetry.
    by apply eq_None_not_Some.
Qed.

(** On a first open, or whenever none of the declared tables exists, the
    upgrade creates every declared table with every declared index, and
    leaves the other tables as they are. *)
Lemma createTables_none_present tables v stores :
  (forall t, is_Some (tables !! t) -> stores !! t = None) ->
  (forall t idx n, tables !! t = Some idx -> is_Some (idx !! n) ->
                   valid_key_path n = true) ->
  createTables tables (upgrading v stores)
  = (Normal tt, upgrading v ((declared_store <$> tables) ∪ stores)).
Proof.
  intros Habsent Hvalid. unfold createTables.
  assert (forallb (fun table =>
            negb (objectStoreNames_contains (upgrading v stores) table))
            (Object_keys tables) = true) as Hall.
  { apply forallb_forall. intros t Hin.
    apply list_elem_of_In, elem_of_Object_keys in Hin.
    unfold objectStoreNames_contains. simpl.
    rewrite (Habsent t Hin). by rewrite bool_decide_eq_false_2 by (by intros [? ?]). }
  rewrite Hall. simpl negb. cbv iota.
  rewrite (forallb_filter_id _ _ Hall), missingTables_all.
  unfold Object_entries. rewrite createTables_loop.
  - by rewrite list_to_map_fmap, list_to_map_to_list.
  - apply NoDup_fst_map_to_list.
  - intros t Hin. apply Habsent. by apply elem_of_Object_keys.
  - intros t idx n Hin Hs. apply elem_of_map_to_list in Hin.
    exact (Hvalid t idx n Hin Hs).
Qed.

(** [createTables] leaves the version of the database alone. *)
Lemma createTables_version tables this :
  version (contents (createTables tables this).2) = version (contents this).
Proof.
  unfold createTables. destruct (negb _); [done|].
  apply (forEach_invariant
           (fun db => version (contents db) = version (contents this))); [|done].
  intros [tableName tableOptions] db Hv. eff.
  unfold createObjectStore at 1.
  destruct (negb (upgrade_transaction db)); [done|].
  case_bool_decide; [done|].
  apply (forEach_invariant
           (fun db => version (contents db) = version (contents this))); [|done].
  intros [tableKey options] db' Hv'. unfold createIndex.
  destruct (negb (valid_key_path tableKey)); [done|].
  destruct (objectStores (contents db') !! tableName); [|done].
  destruct (negb (upgrade_transaction db')); [done|].
  by case_bool_decide.
Qed.

(** A successful initialization leaves the database at the version asked
    for. *)
Lemma _initializeStore_version tables dbVersion blocked w s :
  (_initializeStore tables dbVersion blocked w).1 = Resolved s ->
  version (backing (_initializeStore tables dbVersion blocked w).2) = dbVersion.
Proof.
  unfold _initializeStore. case_bool_decide; [done|].
  case_bool_decide; [by rewrite fire_onerror|].
  case_bool_decide; [|intros _; simpl; lia].
  destruct blocked; [by rewrite fire_onblocked|].
  unfold store_onupgradeneeded. rewrite isIDbRequest_request. simpl.
  pose proof (createTables_version tables
    (mkConnection (mkDatabase dbVersion (objectStores (backing w))) true)) as Hv.
  destruct (createTables _ _) as [[| |] ?]; simpl in *;
    rewrite ?fire_onerror; done.
Qed.

(** With an empty schema [createTables] has nothing to do. *)
Lemma createTables_empty this : createTables ∅ this = (Normal tt, this).
Proof.
  unfold createTables, Object_keys, Object_entries.
  rewrite map_to_list_empty. simpl. by rewrite map_to_list_empty.
Qed.

(** The first construction, on a database that is older than the version
    asked for and holds none of the declared tables: the upgrade creates
    every declared table with its indexes, and initialization succeeds. *)
Lemma first_open tables dbVersion w :
  0 < dbVersion <= max_version ->
  version (backing w) < dbVersion ->
  (forall t, is_Some (tables !! t) -> objectStores (backing w) !! t = None) ->
  (forall t idx n, tables !! t = Some idx -> is_Some (idx !! n) ->
                   valid_key_path n = true) ->
  _initializeStore tables dbVersion false w
  = (Resolved (Some (mkStore "react-with-use")),
     set_backing
       (mkDatabase dbVersion
          ((declared_store <$> tables) ∪ objectStores (backing w))) w).
Proof.
  intros Hpos Hold Habsent Hvalid. unfold _initializeStore.
  rewrite bool_decide_eq_false_2 by lia.
  rewrite bool_decide_eq_false_2 by lia.
  rewrite bool_decide_eq_true_2 by lia.
  unfold store_onupgradeneeded. rewrite isIDbRequest_request. simpl.
  fold (upgrading dbVersion (objectStores (backing w))).
  rewrite (createTables_none_present _ _ _ Habsent Hvalid). simpl.
  rewrite fire_onsuccess.
  destruct (map_choose_or_empty tables) as [(t & idx & Ht)| ->].
  - rewrite (createTables_some_present tables _ t); [done|eauto|].
    simpl. exists (declared_store idx).
    apply lookup_union_Some_l. by rewrite lookup_fmap, Ht.
  - by rewrite createTables_empty.
Qed.

(** On a database that is at the version asked for, initialization changes
    nothing: constructing the store a second time with the same schema and
    version leaves the tables and indexes of the first construction. *)
Lemma _initializeStore_again tables dbVersion blocked w :
  version (backing w) = dbVersion ->
  (_initializeStore tables dbVersion blocked w).2 = w.
Proof.
  intros Hv. unfold _initializeStore.
  case_bool_decide; [done|].
  rewrite !bool_decide_eq_false_2 by lia. done.
Qed.

Lemma construct_twice tables dbVersion blocked w s :
  let first := _initializeStore tables dbVersion blocked w in
  first.1 = Resolved s ->
  (_initializeStore tables dbVersion blocked first.2).2 = first.2.
Proof.
  intros first Hr. apply _initializeStore_again.
  by apply (_initializeStore_version _ _ _ _ s).
Qed.

End Properties.

(** ** The operations on concrete data *)

(** Closed goals about concrete data: evaluate both sides and compare. *)
Ltac evaluate :=
  cbv zeta; repeat apply conj;
  lazymatch goal with |- _ = ?b => vm_cast_no_check (@eq_refl _ b) end.

Section Examples.
#[local] Existing Instance identifier_paths.

Lemma app_store_connected : connected app_store.
Proof. exists (mkStore "react-with-use"). evaluate. Qed.

Lemma plain_store_connected : connected plain_store.
Proof. exists (mkStore "react-with-use"). evaluate. Qed.

Lemma opened_world_todos :
  objectStores (backing opened_world) !! "todos"
  = Some (mkObjectStore todos_indexes ∅).
Proof. evaluate. Qed.

Lemma world_with_milk_todos :
  objectStores (backing world_with_milk) !! "todos"
  = Some (mkObjectStore todos_indexes {[ KStr "u1" := milk ]}).
Proof. evaluate. Qed.

(** The scenario of the application: the store opens on version 5 with the
    table "todos", [getAll] answers the empty sequence, a created record is
    read back, and after [delete] the key holds nothing. *)
Example scenario :
  _store app_store = Resolved (Some (mkStore "react-with-use")) /\
  (getAll app_store "todos" opened_world).1 = Resolved (Some []) /\
  (create app_store "todos" milk opened_world).1 = Resolved tt /\
  (get app_store "todos" (KStr "u1") world_with_milk).1
  = Resolved (present milk) /\
  (get app_store "todos" (KStr "u1")
     (delete_ app_store "todos" (KStr "u1") world_with_milk).2).1
  = Resolved undefined.
Proof. evaluate. Qed.

(** C1 at a failing input: the database of version 5 holds "todos"; the
    store is constructed with version 6 and a schema that declares "todos"
    and "users".  The upgrade runs and commits, initialization succeeds,
    and the declared table "users" has not been created: the database still
    holds "todos" alone. *)
Theorem migration_creates_no_table :
  let r := _initializeStore migrated_schema 6 false world_with_milk in
  r.1 = Resolved (Some (mkStore "react-with-use")) /\
  version (backing r.2) = 6 /\
  objectStores (backing r.2) !! "users" = None /\
  objectStores (backing r.2) = objectStores (backing world_with_milk).
Proof. evaluate. Qed.

(** C2 at a failing input: "todos" holds [milk] under its id "u1".  With
    no index declared, [update] with a record of id "u1" resolves, the
    record at "u1" is as before, and the argument sits under the key
    [randomUUID] gave; with the unique index "id" of the application, the
    same call is refused by the engine and nothing is stored. *)
Theorem update_misses_record_at_id :
  let bread := todo "u1" "Buy bread" in
  let plain := update plain_store "todos" bread plain_world_with_milk in
  let app := update app_store "todos" bread world_with_milk in
  plain.1 = Resolved tt /\
  table_records plain.2 "todos"
  = Some {[ KStr "u1" := milk; KStr "uuid-0" := bread ]} /\
  app.1 = Rejected (new_DOMException "ConstraintError") /\
  table_records app.2 "todos" = Some {[ KStr "u1" := milk ]}.
Proof. evaluate. Qed.

(** The same migration, seen from a connection that is open while another
    one upgrades: the version-change callback returns at the guard of
    [createTables] and creates nothing either. *)
Example versionchange_creates_no_table :
  let conn := mkConnection (backing world_with_milk) false in
  db_onversionchange migrated_schema conn = (Normal tt, conn).
Proof. evaluate. Qed.

(** C3, the counterexample: two records that are not stored and whose key
    is free, and that [create] does not store.  The first goes to a table
    with a unique index on "title" that holds [milk] under "u1": it has the
    free "id" "u2" and the title of [milk]; the engine refuses it, and [get]
    with its "id" finds nothing.  The second goes to the empty table of the
    application and has null as "id", which is no key: [create] rejects
    before any request is made and the table stays empty. *)
Lemma create_refuses_unstored_record :
  (let R := todo "u2" "Buy milk" in
   _store titled_store = Resolved (Some (mkStore "react-with-use")) /\
   table_records titled_world_with_milk "todos"
   = Some {[ KStr "u1" := milk ]} /\
   R <> milk /\
   R !! "id" = Some (PStr "u2") /\
   (create titled_store "todos" R titled_world_with_milk).1
   = Rejected (new_DOMException "ConstraintError") /\
   (get titled_store "todos" (KStr "u2")
      (create titled_store "todos" R titled_world_with_milk).2).1
   = Resolved undefined) /\
  (table_records opened_world "todos" = Some ∅ /\
   no_key !! "id" = Some PNull /\
   (create app_store "todos" no_key opened_world).1
   = Rejected (new_BaseError "Create query failed.") /\
   table_records (create app_store "todos" no_key opened_world).2 "todos"
   = Some ∅).
Proof.
  split.
  - cbv zeta. split; [evaluate|]. split; [evaluate|]. split.
    + intros Heq. apply (f_equal (fun m : resource => m !! "id")) in Heq.
      vm_compute in Heq. discriminate Heq.
    + evaluate.
  - evaluate.
Qed.


(** C4, the counterexample: this [delete] on the table of the application
    resolves and has drawn no key from [randomUUID]. *)
Lemma delete_draws_no_key :
  (delete_ app_store "todos" (KStr "u1") world_with_milk).1 = Resolved tt /\
  ~ generates_random_key (delete_ app_store "todos" (KStr "u1")) world_with_milk.
Proof.
  split; [evaluate|]. unfold generates_random_key. intros Hd.
  vm_compute in Hd. discriminate Hd.
Qed.

(** C5, the counterexample: creating [milk] a second time fails with the
    engine's ConstraintError, which is no instance of [BaseError]. *)
Lemma duplicate_create_fails_with_engine_error :
  exists e, failure (create app_store "todos" milk world_with_milk) = Some e /\
            instanceof e BaseError = false.
Proof. exists (new_DOMException "ConstraintError"). evaluate. Qed.

(** [delete] on a table that does not exist fails with a plain [Error] of
    message "Get query failed.", where the other four methods throw a
    [BaseError]. *)
Example delete_missing_table_plain_error :
  failure (delete_ app_store "users" (KStr "u1") world_with_milk)
  = Some (new_Error "Get query failed.") /\
  instanceof (new_Error "Get query failed.") BaseError = false /\
  failure (get app_store "users" (KStr "u1") world_with_milk)
  = Some (new_BaseError ("Get query failed. " ++ toString (new_DOMException "NotFoundError"))).
Proof. evaluate. Qed.

(** *** The theorems at concrete inputs *)


Lemma getAll_empty_table_witness :
  connected app_store /\
  objectStores (backing opened_world) !! "todos"
  = Some (mkObjectStore todos_indexes ∅) /\
  records (mkObjectStore todos_indexes ∅) = ∅ /\
  getAll app_store "todos" opened_world = (Resolved (Some []), opened_world).
Proof.
  pose proof app_store_connected as Hc.
  pose proof opened_world_todos as Ht.
  assert (records (mkObjectStore todos_indexes ∅) = ∅) as He by reflexivity.
  split; [exact Hc|]. split; [exact Ht|]. split; [exact He|].
  exact (getAll_empty_table _ _ _ _ Hc Ht He).
Defined.

Lemma delete_twice_witness :
  connected app_store /\
  objectStores (backing world_with_milk) !! "todos"
  = Some (mkObjectStore todos_indexes {[ KStr "u1" := milk ]}) /\
  let w1 := (delete_ app_store "todos" (KStr "u1") world_with_milk).2 in
  (delete_ app_store "todos" (KStr "u1") world_with_milk).1 = Resolved tt /\
  table_records w1 "todos" = Some (delete (KStr "u1") {[ KStr "u1" := milk ]}) /\
  delete_ app_store "todos" (KStr "u1") w1 = (Resolved tt, w1).
Proof.
  pose proof app_store_connected as Hc.
  pose proof world_with_milk_todos as Ht.
  split; [assumption|]. split; [assumption|].
  exact (delete_twice _ _ (KStr "u1") _ _ Hc Ht).
Defined.

Lemma create_get_roundtrip_witness :
  connected app_store /\
  objectStores (backing opened_world) !! "todos"
  = Some (mkObjectStore todos_indexes ∅) /\
  storage_key milk opened_world = Some (KStr "u1") /\
  (create app_store "todos" milk opened_world).1 = Resolved tt /\
  get app_store "todos" (KStr "u1")
    (create app_store "todos" milk opened_world).2
  = (Resolved (present milk), (create app_store "todos" milk opened_world).2).
Proof.
  pose proof app_store_connected as Hc.
  pose proof opened_world_todos as Ht.
  assert (storage_key milk opened_world = Some (KStr "u1")) as Hk
    by evaluate.
  assert (records (mkObjectStore todos_indexes ∅) !! KStr "u1" = None) as Hfree
    by reflexivity.
  assert (~ violates_unique (mkObjectStore todos_indexes ∅) (KStr "u1") milk)
    as Hu by (eapply (bool_decide_eq_false_1 _); evaluate).
  destruct (create_get_roundtrip _ _ _ _ _ _ Hc Ht Hk Hfree Hu)
    as (Hr & _ & _ & _ & Hg).
  split; [exact Hc|]. split; [exact Ht|]. split; [exact Hk|].
  split; [exact Hr|exact Hg].
Defined.

Lemma create_duplicate_key_witness :
  connected app_store /\
  objectStores (backing world_with_milk) !! "todos"
  = Some (mkObjectStore todos_indexes {[ KStr "u1" := milk ]}) /\
  storage_key (todo "u1" "Buy bread") world_with_milk = Some (KStr "u1") /\
  (create app_store "todos" (todo "u1" "Buy bread") world_with_milk).1
  = Rejected (new_DOMException "ConstraintError") /\
  backing (create app_store "todos" (todo "u1" "Buy bread") world_with_milk).2
  = backing world_with_milk.
Proof.
  pose proof app_store_connected as Hc.
  pose proof world_with_milk_todos as Ht.
  assert (storage_key (todo "u1" "Buy bread") world_with_milk = Some (KStr "u1"))
    as Hk by evaluate.
  assert (records (mkObjectStore todos_indexes {[ KStr "u1" := milk ]})
            !! KStr "u1" = Some milk) as Hold by evaluate.
  destruct (create_duplicate_key _ _ _ _ _ _ _ Hc Ht Hk Hold) as (Hr & Hb & _).
  split; [exact Hc|]. split; [exact Ht|]. split; [exact Hk|].
  split; [exact Hr|exact Hb].
Defined.

Lemma update_draws_key_delete_draws_none_witness :
  connected app_store /\
  objectStores (backing world_with_milk) !! "todos"
  = Some (mkObjectStore todos_indexes {[ KStr "u1" := milk ]}) /\
  generates_random_key (update app_store "todos" (todo "u2" "Buy bread"))
    world_with_milk /\
  drawn (delete_ app_store "todos" (KStr "u1") world_with_milk).2
  = drawn world_with_milk.
Proof.
  pose proof app_store_connected as Hc.
  pose proof world_with_milk_todos as Ht.
  destruct (update_draws_key_delete_draws_none _ _ (todo "u2" "Buy bread")
              (KStr "u1") _ _ Hc Ht) as (Hg & _ & _ & Hd & _).
  split; [exact Hc|]. split; [exact Ht|]. split; [exact Hg|exact Hd].
Defined.

Lemma failures_by_kind_witness :
  (0 < 4 <= max_version /\
   (_initializeStore todos_schema 4 false world_with_milk).1
   = Rejected new_OpeningDbError /\
   instanceof new_OpeningDbError BaseError = true) /\
  (failure (get_with None app_store "users" (KStr "u1") world_with_milk)
   = Some (new_BaseError
             ("Get query failed. " ++ toString (new_DOMException "NotFoundError")))
   /\
   instanceof
     (new_BaseError
        ("Get query failed. " ++ toString (new_DOMException "NotFoundError")))
     BaseError = true) /\
  (failure (create_with None app_store "todos" milk world_with_milk)
   = Some (new_DOMException "ConstraintError") /\
   instanceof (new_DOMException "ConstraintError") BaseError = false) /\
  (connected app_store /\
   objectStores (backing world_with_milk) !! "todos" = Some milk_todos /\
   failure (get_with (Some "UnknownError") app_store "todos" (KStr "u1")
              world_with_milk)
   = Some (new_DOMException "UnknownError")).
Proof.
  assert (0 < 4 <= max_version) as Hv by (split; reflexivity || discriminate).
  assert ((_initializeStore todos_schema 4 false world_with_milk).1
          = Rejected new_OpeningDbError) as Hi by evaluate.
  assert (failure (get_with None app_store "users" (KStr "u1") world_with_milk)
          = Some (new_BaseError
                    ("Get query failed. "
                     ++ toString (new_DOMException "NotFoundError")))) as Hg
    by evaluate.
  assert (failure (create_with None app_store "todos" milk world_with_milk)
          = Some (new_DOMException "ConstraintError")) as Hf by evaluate.
  pose proof app_store_connected as Hc.
  pose proof world_with_milk_todos as Ht.
  split; [|split; [|split]].
  - destruct (failures_by_kind todos_schema 4 false world_with_milk None
                app_store "todos" (KStr "u1") milk milk world_with_milk
                new_OpeningDbError) as (H1 & _).
    destruct (H1 Hv Hi) as [_ Hb].
    split; [exact Hv|]. split; [exact Hi|exact Hb].
  - destruct (failures_by_kind todos_schema 4 false world_with_milk None
                app_store "users" (KStr "u1") milk milk world_with_milk
                (new_BaseError
                   ("Get query failed. "
                    ++ toString (new_DOMException "NotFoundError"))))
      as (_ & H2 & _).
    split; [exact Hg|].
    destruct (H2 (or_introl Hg)) as [Hb|[Hb _]]; [exact Hb|discriminate Hb].
  - destruct (failures_by_kind todos_schema 4 false world_with_milk None
                app_store "todos" (KStr "u1") milk milk world_with_milk
                (new_DOMException "ConstraintError"))
      as (_ & _ & H3 & _).
    split; [exact Hf|].
    destruct (H3 (or_introl Hf)) as [Hb|[Hb _]]; [discriminate Hb|exact Hb].
  - destruct (failures_by_kind todos_schema 4 false world_with_milk None
                app_store "todos" (KStr "u1") milk milk world_with_milk
                new_OpeningDbError) as (_ & _ & _ & H4).
    split; [exact Hc|]. split; [exact Ht|].
    exact (proj1 (H4 "UnknownError" milk_todos Hc Ht)).
Defined.

End Examples.

(** ** Further properties of the store *)

Section Initialization.
Context `{Engine}.

(** X1: constructing a store never loses or alters a table that exists:
    whatever the schema, the version and the outcome of initialization,
    every table of the database is there afterwards with the same indexes
    and the same records. *)
Theorem initialization_keeps_existing_tables tables dbVersion blocked w t os :
  objectStores (backing w) !! t = Some os ->
  objectStores (backing (_initializeStore tables dbVersion blocked w).2) !! t
  = Some os.
Proof.
  intros Ht. unfold _initializeStore.
  case_bool_decide; [done|]. case_bool_decide; [done|].
  case_bool_decide; [|done]. destruct blocked; [done|].
  unfold store_onupgradeneeded. rewrite isIDbRequest_request. simpl.
  pose proof (createTables_keeps_existing tables
    (mkConnection (mkDatabase dbVersion (objectStores (backing w))) true)
    t os Ht) as Hk.
  by destruct (createTables _ _) as [[| |] ?].
Qed.


(** X3: constructing the store again with the same schema and version,
    after a construction that succeeded, succeeds again and changes
    nothing, whether or not another connection is open. *)
Theorem second_construction_same tables dbVersion blocked blocked' w s :
  let first := _initializeStore tables dbVersion blocked w in
  first.1 = Resolved s ->
  _initializeStore tables dbVersion blocked' first.2 = (Resolved s, first.2).
Proof.
  intros first Hr.
  pose proof (_initializeStore_version _ _ _ _ _ Hr) as Hv. fold first in Hv.
  assert (~ (dbVersion <= 0 \/ max_version < dbVersion)) as Hrange.
  { intros Hbad. revert Hr. unfold first, _initializeStore.
    by rewrite bool_decide_eq_true_2 by done. }
  assert (first.1 = fire (store_onsuccess tables (Object IDBRequest_properties))
                      (mkConnection (backing first.2) false)) as Hfire.
  { revert Hr. unfold first, _initializeStore.
    case_bool_decide; [done|]. case_bool_decide; [by rewrite fire_onerror|].
    case_bool_decide; [|done]. destruct blocked; [by rewrite fire_onblocked|].
    destruct (store_onupgradeneeded _ _ _) as [[| |] ?]; simpl;
      rewrite ?fire_onerror; done. }
  unfold _initializeStore at 1.
  rewrite bool_decide_eq_false_2 by done.
  rewrite bool_decide_eq_false_2 by lia.
  rewrite bool_decide_eq_false_2 by lia.
  by rewrite <- Hfire, Hr.
Qed.

(** A blocked first construction rejects at once and has changed nothing
    then; when the other connection closes, the waiting request creates the
    declared tables all the same, for a store whose promise stays rejected. *)
Lemma blocked_open_upgrades_later tables dbVersion w :
  0 < dbVersion <= max_version ->
  version (backing w) < dbVersion ->
  (forall t, is_Some (tables !! t) -> objectStores (backing w) !! t = None) ->
  (forall t idx n, tables !! t = Some idx -> is_Some (idx !! n) ->
                   valid_key_path n = true) ->
  _initializeStore tables dbVersion true w = (Rejected new_OpeningDbError, w) /\
  backing (blocker_closes tables dbVersion w)
  = mkDatabase dbVersion
      ((declared_store <$> tables) ∪ objectStores (backing w)).
Proof.
  intros Hrange Hold Habsent Hvalid. split.
  - unfold _initializeStore.
    rewrite bool_decide_eq_false_2 by lia.
    rewrite bool_decide_eq_false_2 by lia.
    rewrite bool_decide_eq_true_2 by lia. by rewrite fire_onblocked.
  - unfold blocker_closes.
    by rewrite (first_open _ _ _ Hrange Hold Habsent Hvalid).
Qed.

(** X4: a construction whose promise rejects without the open having been
    blocked leaves the database as it found it: an [open] the engine refuses
    changes nothing, and an upgrade that aborts is rolled back.  (After a
    blocked open the request is still waiting, and the database changes when
    it goes on.) *)
Theorem failed_initialization_changes_nothing tables dbVersion blocked w e :
  blocked = false \/ dbVersion <= version (backing w) ->
  (_initializeStore tables dbVersion blocked w).1 = Rejected e ->
  (_initializeStore tables dbVersion blocked w).2 = w.
Proof.
  intros Hfree. unfold _initializeStore.
  case_bool_decide; [done|]. case_bool_decide; [done|].
  case_bool_decide; [|done]. destruct Hfree as [->|?]; [|lia].
  destruct (store_onupgradeneeded _ _ _) as [[| |] ?]; simpl; try done.
  rewrite fire_onsuccess. by destruct (createTables _ _) as [[| |] ?].
Qed.

(** X5: when the database already is at the version asked for (one that
    [open] takes, 1 to 2^53 - 1) and holds none of the tables of a schema
    that declares at least one, the promise of the store never settles: [createTables] calls [createObjectStore]
    outside an upgrade, the engine throws inside the success callback, and
    neither [resolve] nor [reject] is reached.  The database is unchanged. *)
Theorem stale_version_never_settles tables dbVersion blocked w t idx :
  0 < dbVersion <= max_version ->
  version (backing w) = dbVersion ->
  tables !! t = Some idx ->
  (forall t, is_Some (tables !! t) -> objectStores (backing w) !! t = None) ->
  _initializeStore tables dbVersion blocked w = (Pending, w).
Proof.
  intros Hpos Hv Ht Habsent. unfold _initializeStore.
  rewrite bool_decide_eq_false_2 by lia.
  rewrite bool_decide_eq_false_2 by lia.
  rewrite bool_decide_eq_false_2 by lia.
  rewrite fire_onsuccess. f_equal.
  unfold createTables.
  assert (forallb (fun table =>
            negb (objectStoreNames_contains (mkConnection (backing w) false) table))
            (Object_keys tables) = true) as Hall.
  { apply forallb_forall. intros t' Hin.
    apply list_elem_of_In, elem_of_Object_keys in Hin.
    unfold objectStoreNames_contains. simpl. rewrite (Habsent t' Hin).
    by rewrite bool_decide_eq_false_2 by (by intros [? ?]). }
  rewrite Hall. simpl negb. cbv iota.
  rewrite (forallb_filter_id _ _ Hall), missingTables_all.
  unfold Object_entries.
  destruct (map_to_list tables) as [|[t' idx'] l] eqn:El.
  - apply map_to_list_empty_iff in El. subst. by rewrite lookup_empty in Ht.
  - done.
Qed.

(** X23: outside an upgrade transaction [createTables] changes nothing,
    whatever the schema: it returns at its guard, or has nothing to create,
    or the engine throws at the first [createObjectStore].  This is the call
    in the success callback and the whole of the version-change callback,
    which therefore never creates a table. *)
Theorem createTables_outside_upgrade tables this :
  upgrade_transaction this = false ->
  (createTables tables this).2 = this /\
  (db_onversionchange tables this).2 = this.
Proof.
  intros Hu. unfold db_onversionchange.
  assert ((createTables tables this).2 = this) as Hsame; [|done].
  unfold createTables. destruct (negb _); [done|].
  apply (forEach_invariant (fun db => db = this)); [|done].
  intros [tableName tableOptions] db ->. eff.
  unfold createObjectStore. by rewrite Hu.
Qed.

End Initialization.

Section Operations.
Context `{Engine}.

(** Every error is an [Error]. *)
Lemma instanceof_Error error : instanceof error Error = true.
Proof. by destruct error as [[] ? ?]. Qed.

(** What [_getTable] does without a connection. *)
Lemma _getTable_pending this T w :
  _store this = Pending -> _getTable this T w = (Suspended, w).
Proof. intros Hs. unfold _getTable. eff. by rewrite Hs. Qed.

Lemma _getTable_rejected this T w e :
  _store this = Rejected e -> _getTable this T w = (Throw e, w).
Proof. intros Hs. unfold _getTable. eff. by rewrite Hs. Qed.

Lemma _getTable_missing this T w :
  connected this -> objectStores (backing w) !! T = None ->
  _getTable this T w = (Throw (new_DOMException "NotFoundError"), w).
Proof.
  intros [s Hs] Ht. unfold _getTable, IDBDatabase_transaction. eff.
  by rewrite Hs, Ht.
Qed.

(** X6: while the promise of the store is pending, as it stays for ever
    when the success callback has thrown, every operation is pending too: it
    neither resolves nor rejects, and it changes nothing. *)
Theorem operations_on_pending_store this T k R w :
  _store this = Pending ->
  get this T k w = (Pending, w) /\
  getAll this T w = (Pending, w) /\
  create this T R w = (Pending, w) /\
  update this T R w = (Pending, w) /\
  delete_ this T k w = (Pending, w).
Proof.
  intros Hs. unfold get, getAll, create, update, delete_,
    get_with, getAll_with, create_with, update_with, delete_with. eff.
  by rewrite (_getTable_pending _ _ _ Hs).
Qed.

(** X7: when initialization failed with [e], every operation rejects and
    changes nothing, and no key is drawn: [get] and [getAll] with a
    [BaseError] whose message ends with the text of [e], [create] and
    [update] with a [BaseError] of fixed message, and [delete] with a plain
    [Error] of message "Get query failed.". *)
Theorem operations_after_failed_open this T k R w e :
  _store this = Rejected e ->
  get this T k w
  = (Rejected (new_BaseError ("Get query failed. " ++ toString e)), w) /\
  getAll this T w
  = (Rejected (new_BaseError ("GetAll query failed. " ++ toString e)), w) /\
  create this T R w = (Rejected (new_BaseError "Create query failed."), w) /\
  update this T R w = (Rejected (new_BaseError "Update query failed."), w) /\
  delete_ this T k w = (Rejected (new_Error "Get query failed."), w).
Proof.
  intros Hs. unfold get, getAll, create, update, delete_,
    get_with, getAll_with, create_with, update_with, delete_with. eff.
  rewrite (_getTable_rejected _ _ _ _ Hs). by rewrite instanceof_Error.
Qed.

(** X8: on a table that does not exist, every operation rejects and
    changes nothing, and no key is drawn: the engine's NotFoundError is
    caught and replaced, by a [BaseError] in [get], [getAll], [create] and
    [update], and by a plain [Error] in [delete]. *)
Theorem operations_on_missing_table this T k R w :
  connected this ->
  objectStores (backing w) !! T = None ->
  (exists m, get this T k w
             = (Rejected (new_BaseError ("Get query failed. " ++ m)), w)) /\
  (exists m, getAll this T w
             = (Rejected (new_BaseError ("GetAll query failed. " ++ m)), w)) /\
  create this T R w = (Rejected (new_BaseError "Create query failed."), w) /\
  update this T R w = (Rejected (new_BaseError "Update query failed."), w) /\
  delete_ this T k w = (Rejected (new_Error "Get query failed."), w).
Proof.
  intros Hc Ht. unfold get, getAll, create, update, delete_,
    get_with, getAll_with, create_with, update_with, delete_with. eff.
  rewrite (_getTable_missing _ _ _ Hc Ht). simpl.
  repeat split; try done; by eexists.
Qed.

(** What [create] does with an "id" the engine does not take as a key. *)
Lemma create_invalid_key this T R w os id :
  connected this ->
  objectStores (backing w) !! T = Some os ->
  R !! "id" = Some id ->
  to_key id = None ->
  create this T R w = (Rejected (new_BaseError "Create query failed."), w).
Proof.
  intros Hc Ht Hid Hk. unfold create, create_with. eff.
  rewrite (_getTable_connected _ _ _ _ Hc Ht). unfold table_handle. simpl.
  rewrite Hid. unfold IDBObjectStore_add, writable. eff. simpl. by rewrite Hk.
Qed.

(** X9: a record whose "id" is not a valid key (null, a boolean,
    undefined) cannot be created: the engine throws before any request is
    made, and [create] rejects with "Create query failed." and stores
    nothing. *)
Theorem create_invalid_id this T R w os id :
  connected this ->
  objectStores (backing w) !! T = Some os ->
  R !! "id" = Some id ->
  to_key id = None ->
  create this T R w = (Rejected (new_BaseError "Create query failed."), w).
Proof. apply create_invalid_key. Qed.

End Operations.

Section Tables.
Context `{Engine}.

Lemma same_schema_backing T w w' :
  backing w' = backing w -> same_schema_except T w w'.
Proof. intros Hb. unfold same_schema_except. by rewrite Hb. Qed.

Lemma same_schema_write T w w0 os recs :
  objectStores (backing w) !! T = Some os ->
  backing w0 = backing w ->
  same_schema_except T w
    (set_backing
       (mkDatabase (version (backing w0))
          (<[T := mkObjectStore (indexes os) recs]> (objectStores (backing w0))))
       w0).
Proof.
  intros Ht Hb. unfold same_schema_except. simpl. rewrite Hb.
  split; [done|]. intros T'. destruct (decide (T' = T)) as [->|Hne].
  - rewrite lookup_insert_eq, Ht. by split.
  - by rewrite lookup_insert_ne.
Qed.

(** An operation that does not get its table changes nothing. *)
Lemma without_table {A} this T w (c : completion IDBObjectStore) w'
    (body : IDBObjectStore -> Eff World (Settled A))
    (handler : JsError -> Eff World (Settled A)) :
  _getTable this T w = (c, w') ->
  (forall t, c <> Normal t) ->
  (forall e w, (handler e w).2 = w) ->
  (async (try_catch (table ← _getTable this T; body table) handler) w).2 = w.
Proof.
  intros E Hc Hh. pose proof (_getTable_frame this T w) as Hf.
  rewrite E in Hf. simpl in Hf. subst w'. eff. rewrite E.
  destruct c as [t|e|]; [by destruct (Hc t)| |done].
  specialize (Hh e w). by destruct (handler e w) as [[| |] ?].
Qed.

(** X10: no operation ever creates or drops a table, changes an index or
    the version, or touches the records of another table: after [get],
    [getAll], [create], [update] or [delete] on table [T], in every state of
    the store and whatever the outcome, the database has the same version and
    the same tables with the same indexes, and every table other than [T]
    holds the same records. *)
Theorem operations_keep_schema this T k R w :
  same_schema_except T w (get this T k w).2 /\
  same_schema_except T w (getAll this T w).2 /\
  same_schema_except T w (create this T R w).2 /\
  same_schema_except T w (update this T R w).2 /\
  same_schema_except T w (delete_ this T k w).2.
Proof.
  split; [by rewrite get_frame; apply same_schema_backing|].
  split; [by rewrite getAll_frame; apply same_schema_backing|].
  destruct (_getTable this T w) as [[t| |] w'] eqn:E.
  - apply _getTable_Normal in E as (-> & -> & Hc & [os Ht]).
    split; [|split].
    + destruct (storage_key R w) as [key|] eqn:Hk.
      * rewrite (create_connected _ _ _ _ _ _ Hc Ht Hk).
        assert (backing (world_after_key R w) = backing w) as Hb
          by (unfold world_after_key; by destruct (R !! "id")).
        repeat case_bool_decide; try by apply same_schema_backing.
        by apply same_schema_write.
      * unfold storage_key in Hk.
        destruct (R !! "id") as [id|] eqn:Hid; [|done].
        rewrite (create_invalid_key _ _ _ _ _ _ Hc Ht Hid Hk).
        by apply same_schema_backing.
    + rewrite (update_connected _ _ _ _ _ Hc Ht). simpl.
      case_bool_decide; [by apply same_schema_backing|].
      by apply same_schema_write.
    + rewrite (delete_connected _ _ _ _ _ Hc Ht). simpl.
      by apply same_schema_write.
  - split; [|split]; apply same_schema_backing; f_equal.
    + unfold create, create_with. by eapply without_table.
    + unfold update, update_with. by eapply without_table.
    + unfold delete_, delete_with. by eapply without_table.
  - split; [|split]; apply same_schema_backing; f_equal.
    + unfold create, create_with. by eapply without_table.
    + unfold update, update_with. by eapply without_table.
    + unfold delete_, delete_with. by eapply without_table.
Qed.

End Tables.

Section Records.
Context `{Engine}.

(** The order in which [getAll] lists is total. *)
Lemma key_order_total :
  Total (fun a b : IDBValidKey * resource => key_le a.1 b.1).
Proof.
  intros [[m|s] ?] [[n|t] ?]; simpl; try tauto.
  - lia.
  - apply String.leb_total.
Qed.

(** What [getAll] answers on an existing table. *)
Lemma getAll_connected this T w os :
  connected this -> objectStores (backing w) !! T = Some os ->
  getAll this T w = (Resolved (Some (listing (records os))), w).
Proof.
  intros Hc Ht. unfold getAll, getAll_with. eff.
  rewrite (_getTable_connected _ _ _ _ Hc Ht). unfold table_handle. simpl.
  unfold IDBObjectStore_getAll, store_of. eff. simpl. by rewrite Ht.
Qed.

(** X11: on an existing table, [getAll] resolves with every stored record
    exactly once, in ascending order of the keys (numbers before strings),
    and changes nothing. *)
Theorem getAll_lists_every_record this T w os :
  connected this ->
  objectStores (backing w) !! T = Some os ->
  exists l : list (IDBValidKey * resource),
    getAll this T w = (Resolved (Some l.*2), w) /\
    l ≡ₚ map_to_list (records os) /\
    Sorted (fun a b => key_le a.1 b.1) l.
Proof.
  intros Hc Ht.
  exists (merge_sort (fun a b => key_le a.1 b.1) (map_to_list (records os))).
  split; [exact (getAll_connected _ _ _ _ Hc Ht)|].
  split; [apply merge_sort_Permutation|].
  apply (@Sorted_merge_sort _ _ _ key_order_total).
Qed.

(** X12: [create] followed by [delete] of the key the record was stored
    under restores the database: both resolve, and every table, the one
    written to included, is as it was before the [create]. *)
Theorem create_then_delete this T R w os key :
  connected this ->
  objectStores (backing w) !! T = Some os ->
  storage_key R w = Some key ->
  records os !! key = None ->
  ~ violates_unique os key R ->
  let w1 := (create this T R w).2 in
  (create this T R w).1 = Resolved tt /\
  (delete_ this T key w1).1 = Resolved tt /\
  backing (delete_ this T key w1).2 = backing w.
Proof.
  intros Hc Ht Hk Hfree Hu.
  rewrite (create_connected _ _ _ _ _ _ Hc Ht Hk).
  rewrite bool_decide_eq_false_2 by (rewrite Hfree; by intros [? ?]).
  rewrite bool_decide_eq_false_2 by done. simpl.
  assert (backing (world_after_key R w) = backing w) as Hb
    by (unfold world_after_key; by destruct (R !! "id")).
  split; [done|].
  erewrite delete_connected; [|done|simpl; apply lookup_insert_eq].
  simpl. split; [done|]. rewrite Hb, insert_insert_eq.
  rewrite delete_insert_eq by done.
  destruct os as [idx recs]. simpl in *.
  rewrite (delete_id _ _ Hfree), insert_id by done.
  by destruct (backing w).
Qed.

(** A record that agrees with a stored one on a unique index breaks it. *)
Lemma unique_clash os key value name params k old ik :
  indexes os !! name = Some params ->
  unique params = true ->
  records os !! k = Some old ->
  k <> key ->
  evaluate_key_path name value = Some ik ->
  evaluate_key_path name old = Some ik ->
  violates_unique os key value.
Proof.
  intros Hi Hu Hold Hne Hp Ho.
  unfold violates_unique. apply map_Exists_lookup. exists name, params.
  split; [done|]. split; [done|].
  apply map_Exists_lookup. exists k, old. split; [done|].
  unfold same_index_key. rewrite Hp, Ho. eauto.
Qed.


(** X14: [create] is refused in the same way: a record that agrees on a
    unique index with a record stored under another key is not stored, even
    though its own key is free. *)
Theorem create_refused_on_unique_clash this T R w os key name params k old ik :
  connected this ->
  objectStores (backing w) !! T = Some os ->
  storage_key R w = Some key ->
  indexes os !! name = Some params ->
  unique params = true ->
  records os !! k = Some old ->
  k <> key ->
  evaluate_key_path name R = Some ik ->
  evaluate_key_path name old = Some ik ->
  (create this T R w).1 = Rejected (new_DOMException "ConstraintError") /\
  backing (create this T R w).2 = backing w.
Proof.
  intros Hc Ht Hk Hi Hu Hold Hne Hp Ho.
  rewrite (create_connected _ _ _ _ _ _ Hc Ht Hk).
  assert (backing (world_after_key R w) = backing w) as Hb
    by (unfold world_after_key; by destruct (R !! "id")).
  case_bool_decide; [done|].
  rewrite bool_decide_eq_true_2; [done|]. by eapply unique_clash.
Qed.

(** X15: an [update] that succeeds replaces nothing unless the key drawn
    is taken: when that key is free, the table has one record more than
    before, the argument under the drawn key, and every record that was
    stored is still stored under its key. *)
Theorem update_adds_record this T p w os :
  connected this ->
  objectStores (backing w) !! T = Some os ->
  records os !! KStr (uuids w (drawn w)) = None ->
  (update this T p w).1 = Resolved tt ->
  exists recs,
    table_records (update this T p w).2 T = Some recs /\
    size recs = S (size (records os)) /\
    recs !! KStr (uuids w (drawn w)) = Some p /\
    forall k old, records os !! k = Some old -> recs !! k = Some old.
Proof.
  intros Hc Ht Hfree. rewrite (update_connected _ _ _ _ _ Hc Ht). simpl.
  case_bool_decide; [done|]. intros _.
  exists (<[KStr (uuids w (drawn w)) := p]> (records os)).
  unfold table_records. simpl. rewrite lookup_insert_eq. simpl.
  split; [done|]. split; [by apply map_size_insert_None|].
  split; [apply lookup_insert_eq|].
  intros k old Hk. rewrite lookup_insert_ne; [done|]. by intros <-; rewrite Hfree in Hk.
Qed.

(** X24: on an existing table, [create] calls [randomUUID] exactly when
    the record has no "id" of its own, and then once, whether the engine
    takes the record or refuses it; a record with an "id", valid or not,
    draws no key. *)
Theorem create_draws_key_without_id this T R w os :
  connected this ->
  objectStores (backing w) !! T = Some os ->
  drawn (create this T R w).2
  = match R !! "id" with
    | Some _ => drawn w
    | None => S (drawn w)
    end.
Proof.
  intros Hc Ht.
  assert (drawn (world_after_key R w)
          = match R !! "id" with Some _ => drawn w | None => S (drawn w) end)
    as Hd by (unfold world_after_key; by destruct (R !! "id")).
  destruct (storage_key R w) as [key|] eqn:Hk.
  - rewrite (create_connected _ _ _ _ _ _ Hc Ht Hk).
    by repeat case_bool_decide.
  - unfold storage_key in Hk. destruct (R !! "id") as [id|] eqn:Hid; [|done].
    by rewrite (create_invalid_key _ _ _ _ _ _ Hc Ht Hid Hk).
Qed.

End Records.

(** ** Properties of the application *)

Section ApplicationProperties.
Context `{Engine}.

(** An [async] function that awaits a call and returns its result is that
    call. *)
Lemma async_value_await {S A} (call : S -> Settled A * S) s :
  async_value (a ← await_call call; mret a) s = call s.
Proof.
  unfold async_value, await_call. eff.
  by destruct (call s) as [[| |] ?].
Qed.

Lemma TodoRepository_getAll_plain this w :
  TodoRepository_getAll this None PUndefined w = IStore_getAll (store this) w.
Proof. apply async_value_await. Qed.

(** On a value that is not falsy, [item[filter] === value] holds exactly
    when the record has the property with that value. *)
Lemma strict_equal_property (item : resource) filter value :
  falsy value = false ->
  strict_equal (property item filter) value
  = bool_decide (item !! filter = Some value).
Proof.
  intros Hv. unfold strict_equal, property. apply bool_decide_ext.
  destruct (item !! filter) as [v|]; simpl.
  - split; [by intros ->|by intros [= ->]].
  - split; [|done]. intros <-. simpl in Hv. discriminate Hv.
Qed.

(** X16: with a filter and a value that is not falsy, [getAll] of the
    repository resolves with exactly the records of the store's list that
    have the property of that name with that value: every such record, as
    often and in the order in which the list has it, and no other; a record
    without the property is left out. *)
Theorem TodoRepository_getAll_filters this filter value w l w' :
  IStore_getAll (store this) w = (Resolved (Some l), w') ->
  filter <> "" ->
  falsy value = false ->
  TodoRepository_getAll this (Some filter) value w
  = (Resolved
       (Some (List.filter
                (fun item => bool_decide (item !! filter = Some value)) l)),
     w').
Proof.
  intros Hl Hf Hv.
  unfold TodoRepository_getAll, async_value, await_call. eff. rewrite Hl.
  simpl. destruct filter as [|c filter]; [done|]. rewrite Hv. simpl.
  do 3 f_equal. apply filter_ext. intros item.
  by apply strict_equal_property.
Qed.

(** X17: without a filter, with the empty name as filter, or with a value
    that is falsy (undefined, null, false, 0, the empty string), [getAll] of
    the repository does not filter at all: it is the [getAll] of the store,
    with the same result, the same failure and the same effect.  Asking for
    the records whose "completedBy" is null yields every record. *)
Theorem TodoRepository_getAll_unfiltered this filter value w :
  filter = None \/ filter = Some "" \/ falsy value = true ->
  TodoRepository_getAll this filter value w = IStore_getAll (store this) w.
Proof.
  intros Hcase. rewrite <- (async_value_await (IStore_getAll (store this)) w).
  unfold TodoRepository_getAll, async_value, await_call. eff.
  destruct (IStore_getAll (store this) w) as [[list| |] w']; simpl; try done.
  destruct Hcase as [->|[->|Hv]]; try done.
  destruct filter as [[|c filter]|]; try done. by rewrite Hv.
Qed.

(** The object [{ id, ...resource }] *)
Lemma spread_after_id_lookup id (resource : resource) :
  spread_after_id id resource
  = match resource !! "id" with
    | Some _ => resource
    | None => <["id" := id]> resource
    end.
Proof.
  unfold spread_after_id. apply map_eq. intros name.
  destruct (resource !! "id") as [own|] eqn:Hid.
  - destruct (decide (name = "id")) as [->|Hne].
    + by rewrite (lookup_union_Some_l _ _ _ _ Hid).
    + destruct (resource !! name) as [v|] eqn:Hn.
      * by rewrite (lookup_union_Some_l _ _ _ _ Hn).
      * rewrite lookup_union_r by done. by rewrite lookup_singleton_ne.
  - rewrite insert_union_singleton_r by done. done.
Qed.

(** X18: [update(id, resource)] of the repository ignores its first
    argument when the resource carries an "id" of its own, whatever that is:
    the store is handed the resource as it is.  Only a resource without "id"
    gets the argument as its "id". *)
Theorem TodoRepository_update_own_id this id (resource : resource) :
  TodoRepository_update this id resource
  = IStore_update (store this)
      (match resource !! "id" with
       | Some _ => resource
       | None => <["id" := id]> resource
       end).
Proof. unfold TodoRepository_update. by rewrite spread_after_id_lookup. Qed.

(** The service of a store asks that store, on the table "todos". *)
Lemma TodosService_getAll_of asyncStore w :
  TodosService_getAll (todoService_of asyncStore) w = getAll asyncStore "todos" w.
Proof. unfold TodosService_getAll. by rewrite TodoRepository_getAll_plain. Qed.

(** A stored record is in the listing. *)
Lemma elem_of_listing recs k r : recs !! k = Some r -> r ∈ listing recs.
Proof.
  intros Hk. unfold listing. apply list_elem_of_fmap. exists (k, r).
  split; [done|]. rewrite merge_sort_Permutation. by apply elem_of_map_to_list.
Qed.

(** X19: creating a to-do from the page, when the store accepts it,
    refreshes the page: the promise resolves, the record is stored under its
    key, and [data] becomes the full listing of the table, the new record
    included. *)
Theorem onCreate_refreshes_data asyncStore todo page os key :
  connected asyncStore ->
  objectStores (backing (world page)) !! "todos" = Some os ->
  storage_key todo (world page) = Some key ->
  records os !! key = None ->
  ~ violates_unique os key todo ->
  let r := onCreate (todoService_of asyncStore) todo page in
  r.1 = Resolved tt /\
  table_records (world r.2) "todos" = Some (<[key := todo]> (records os)) /\
  data r.2 = Some (listing (<[key := todo]> (records os))) /\
  todo ∈ listing (<[key := todo]> (records os)).
Proof.
  intros Hc Ht Hk Hfree Hu.
  pose proof (create_connected _ _ _ _ _ _ Hc Ht Hk) as Hcreate.
  rewrite bool_decide_eq_false_2 in Hcreate by (rewrite Hfree; by intros [? ?]).
  rewrite bool_decide_eq_false_2 in Hcreate by done.
  set (w1 := with_record "todos" os key todo (world_after_key todo (world page)))
    in *.
  assert (objectStores (backing w1) !! "todos"
          = Some (mkObjectStore (indexes os) (<[key := todo]> (records os))))
    as Ht1 by (simpl; apply lookup_insert_eq).
  unfold onCreate, then_, in_world, setData.
  unfold TodosService_create, TodoRepository_create. simpl.
  unfold tables_todos. rewrite Hcreate. simpl.
  rewrite TodosService_getAll_of, (getAll_connected _ _ _ _ Hc Ht1). simpl.
  split; [done|]. split; [|split; [done|]].
  - unfold table_records. by rewrite Ht1.
  - apply (elem_of_listing _ key). apply lookup_insert_eq.
Qed.

(** X20: updating from the page a to-do that [create] has stored fails
    whenever the table has the unique index on "id": the record handed to the
    store is the to-do itself, it agrees on "id" with the stored one, the
    engine refuses it, the promise rejects with the ConstraintError, and
    neither the database nor [data] changes. *)
Theorem onUpdate_stored_todo_refused asyncStore todo page os params k old id ik :
  connected asyncStore ->
  objectStores (backing (world page)) !! "todos" = Some os ->
  indexes os !! "id" = Some params ->
  unique params = true ->
  records os !! k = Some old ->
  k <> KStr (uuids (world page) (drawn (world page))) ->
  todo !! "id" = Some id ->
  evaluate_key_path "id" todo = Some ik ->
  evaluate_key_path "id" old = Some ik ->
  let r := onUpdate (todoService_of asyncStore) todo page in
  r.1 = Rejected (new_DOMException "ConstraintError") /\
  backing (world r.2) = backing (world page) /\
  data r.2 = data page.
Proof.
  intros Hc Ht Hi Hu Hold Hne Hid Hp Ho.
  unfold onUpdate, then_, in_world.
  unfold TodosService_update, TodoRepository_update.
  rewrite spread_after_id_lookup, Hid. simpl. unfold tables_todos.
  rewrite (update_connected _ _ _ _ _ Hc Ht). simpl.
  rewrite bool_decide_eq_true_2; [done|]. by eapply unique_clash.
Qed.

(** X21: deleting from the page always succeeds on the table of the
    application, whether or not the key holds a record: afterwards the key
    holds nothing and [data] is the listing of what is left. *)
Theorem onDelete_refreshes_data asyncStore todoId page os :
  connected asyncStore ->
  objectStores (backing (world page)) !! "todos" = Some os ->
  let r := onDelete (todoService_of asyncStore) todoId page in
  r.1 = Resolved tt /\
  table_records (world r.2) "todos" = Some (delete (KStr todoId) (records os)) /\
  data r.2 = Some (listing (delete (KStr todoId) (records os))).
Proof.
  intros Hc Ht.
  pose proof (delete_connected _ _ (KStr todoId) _ _ Hc Ht) as Hdel.
  unfold onDelete, then_, in_world, setData.
  unfold TodosService_delete, TodoRepository_delete. simpl.
  unfold tables_todos. rewrite Hdel. simpl.
  rewrite TodosService_getAll_of.
  erewrite getAll_connected; [|done|simpl; apply lookup_insert_eq].
  simpl. split; [done|]. split; [|done].
  unfold table_records. simpl. by rewrite lookup_insert_eq.
Qed.

(** X22: reading one to-do from the page resolves with the record under
    that key, or with nothing when there is none, and in both cases
    refreshes [data] with the listing of the table; the database is not
    changed. *)
Theorem onGetTodo_reads_and_refreshes asyncStore todoId page os :
  connected asyncStore ->
  objectStores (backing (world page)) !! "todos" = Some os ->
  onGetTodo (todoService_of asyncStore) todoId page
  = (Resolved (found (records os !! KStr todoId)),
     mkPage (world page) (Some (listing (records os)))).
Proof.
  intros Hc Ht.
  unfold onGetTodo, then_, in_world, setData, async_value, await_call.
  unfold TodosService_get, TodoRepository_get. simpl. unfold tables_todos.
  rewrite (get_connected _ _ _ _ _ Hc Ht). simpl. eff. simpl.
  rewrite TodosService_getAll_of, (getAll_connected _ _ _ _ Hc Ht). done.
Qed.

End ApplicationProperties.

(** ** The further properties at concrete inputs *)

Section MoreExamples.
#[local] Existing Instance identifier_paths.

Lemma plain_world_with_milk_todos :
  objectStores (backing plain_world_with_milk) !! "todos"
  = Some (mkObjectStore ∅ {[ KStr "u1" := milk ]}).
Proof. evaluate. Qed.

Lemma storage_key_milk : storage_key milk opened_world = Some (KStr "u1").
Proof. evaluate. Qed.

Lemma milk_unclashing : ~ violates_unique empty_todos (KStr "u1") milk.
Proof. eapply (bool_decide_eq_false_1 _). evaluate. Qed.


Lemma initialization_keeps_existing_tables_witness :
  objectStores (backing world_with_milk) !! "todos" = Some milk_todos /\
  objectStores
    (backing (_initializeStore migrated_schema 6 false world_with_milk).2)
    !! "todos" = Some milk_todos.
Proof.
  pose proof world_with_milk_todos as Ht.
  split; [exact Ht|].
  exact (initialization_keeps_existing_tables migrated_schema 6 false
           world_with_milk "todos" milk_todos Ht).
Defined.


Lemma second_construction_same_witness :
  (_initializeStore todos_schema 5 false fresh_world).1
  = Resolved (Some (mkStore "react-with-use")) /\
  _initializeStore todos_schema 5 true
    (_initializeStore todos_schema 5 false fresh_world).2
  = (Resolved (Some (mkStore "react-with-use")),
     (_initializeStore todos_schema 5 false fresh_world).2).
Proof.
  assert ((_initializeStore todos_schema 5 false fresh_world).1
          = Resolved (Some (mkStore "react-with-use"))) as Hr by evaluate.
  split; [exact Hr|].
  exact (second_construction_same todos_schema 5 false true fresh_world _ Hr).
Defined.

Lemma failed_initialization_changes_nothing_witness :
  (false = false \/ 4 <= version (backing world_with_milk)) /\
  (_initializeStore todos_schema 4 false world_with_milk).1
  = Rejected new_OpeningDbError /\
  (_initializeStore todos_schema 4 false world_with_milk).2 = world_with_milk.
Proof.
  assert (false = false \/ 4 <= version (backing world_with_milk)) as Hfree
    by (left; reflexivity).
  assert ((_initializeStore todos_schema 4 false world_with_milk).1
          = Rejected new_OpeningDbError) as Hr by evaluate.
  split; [exact Hfree|]. split; [exact Hr|].
  exact (failed_initialization_changes_nothing _ _ _ _ _ Hfree Hr).
Defined.

Lemma stale_version_never_settles_witness :
  0 < 5 <= max_version /\ version (backing emptied_world) = 5 /\
  todos_schema !! "todos" = Some todos_indexes /\
  _initializeStore todos_schema 5 false emptied_world = (Pending, emptied_world).
Proof.
  assert (0 < 5 <= max_version) as Hpos by (split; [reflexivity|discriminate]).
  assert (version (backing emptied_world) = 5) as Hv by reflexivity.
  assert (todos_schema !! "todos" = Some todos_indexes) as Ht by evaluate.
  assert (forall t, is_Some (todos_schema !! t) ->
                    objectStores (backing emptied_world) !! t = None) as Habsent
    by (intros t _; apply lookup_empty).
  split; [exact Hpos|]. split; [exact Hv|]. split; [exact Ht|].
  exact (stale_version_never_settles todos_schema 5 false emptied_world
           "todos" todos_indexes Hpos Hv Ht Habsent).
Defined.

Lemma operations_on_pending_store_witness :
  _store pending_store = Pending /\
  get pending_store "todos" (KStr "u1") world_with_milk
  = (Pending, world_with_milk).
Proof.
  assert (_store pending_store = Pending) as Hs by reflexivity.
  split; [exact Hs|].
  exact (proj1 (operations_on_pending_store pending_store "todos" (KStr "u1")
                  milk world_with_milk Hs)).
Defined.

Lemma operations_after_failed_open_witness :
  _store failed_store = Rejected new_OpeningDbError /\
  delete_ failed_store "todos" (KStr "u1") world_with_milk
  = (Rejected (new_Error "Get query failed."), world_with_milk).
Proof.
  assert (_store failed_store = Rejected new_OpeningDbError) as Hs
    by reflexivity.
  split; [exact Hs|].
  destruct (operations_after_failed_open failed_store "todos" (KStr "u1")
              milk world_with_milk _ Hs) as (_ & _ & _ & _ & Hd).
  exact Hd.
Defined.

Lemma operations_on_missing_table_witness :
  connected app_store /\
  objectStores (backing world_with_milk) !! "users" = None /\
  create app_store "users" milk world_with_milk
  = (Rejected (new_BaseError "Create query failed."), world_with_milk).
Proof.
  pose proof app_store_connected as Hc.
  assert (objectStores (backing world_with_milk) !! "users" = None) as Ht
    by evaluate.
  split; [exact Hc|]. split; [exact Ht|].
  destruct (operations_on_missing_table app_store "users" (KStr "u1") milk
              world_with_milk Hc Ht) as (_ & _ & Hcr & _).
  exact Hcr.
Defined.

Lemma create_invalid_id_witness :
  connected app_store /\
  objectStores (backing opened_world) !! "todos" = Some empty_todos /\
  no_key !! "id" = Some PNull /\
  to_key PNull = None /\
  create app_store "todos" no_key opened_world
  = (Rejected (new_BaseError "Create query failed."), opened_world).
Proof.
  pose proof app_store_connected as Hc.
  pose proof opened_world_todos as Ht.
  assert (no_key !! "id" = Some PNull) as Hid by evaluate.
  assert (to_key PNull = None) as Hk by reflexivity.
  split; [exact Hc|]. split; [exact Ht|]. split; [exact Hid|].
  split; [exact Hk|].
  exact (create_invalid_id _ _ _ _ _ _ Hc Ht Hid Hk).
Defined.

Lemma getAll_lists_every_record_witness :
  connected app_store /\
  objectStores (backing world_with_milk) !! "todos" = Some milk_todos /\
  exists l : list (IDBValidKey * resource),
    getAll app_store "todos" world_with_milk
    = (Resolved (Some l.*2), world_with_milk) /\
    l ≡ₚ map_to_list (records milk_todos).
Proof.
  pose proof app_store_connected as Hc.
  pose proof world_with_milk_todos as Ht.
  split; [exact Hc|]. split; [exact Ht|].
  destruct (getAll_lists_every_record _ _ _ _ Hc Ht) as (l & Hg & Hp & _).
  exists l. split; [exact Hg|exact Hp].
Defined.

Lemma create_then_delete_witness :
  connected app_store /\
  objectStores (backing opened_world) !! "todos" = Some empty_todos /\
  storage_key milk opened_world = Some (KStr "u1") /\
  records empty_todos !! KStr "u1" = None /\
  backing (delete_ app_store "todos" (KStr "u1")
             (create app_store "todos" milk opened_world).2).2
  = backing opened_world.
Proof.
  pose proof app_store_connected as Hc.
  pose proof opened_world_todos as Ht.
  pose proof storage_key_milk as Hk.
  assert (records empty_todos !! KStr "u1" = None) as Hfree by reflexivity.
  destruct (create_then_delete _ _ _ _ _ _ Hc Ht Hk Hfree milk_unclashing)
    as (_ & _ & Hb).
  split; [exact Hc|]. split; [exact Ht|]. split; [exact Hk|].
  split; [exact Hfree|exact Hb].
Defined.

Lemma drawn_key_not_u1 :
  KStr "u1" <> KStr (uuids world_with_milk (drawn world_with_milk)).
Proof. intros Heq. vm_compute in Heq. discriminate Heq. Qed.


Lemma create_refused_on_unique_clash_witness :
  connected app_store /\
  objectStores (backing titled_world) !! "todos" = Some titled_todos /\
  storage_key (todo "u2" "Buy milk") titled_world = Some (KStr "u2") /\
  records titled_todos !! KStr "u1" = Some milk /\
  KStr "u1" <> KStr "u2" /\
  (create app_store "todos" (todo "u2" "Buy milk") titled_world).1
  = Rejected (new_DOMException "ConstraintError").
Proof.
  pose proof app_store_connected as Hc.
  assert (objectStores (backing titled_world) !! "todos" = Some titled_todos)
    as Ht by evaluate.
  assert (storage_key (todo "u2" "Buy milk") titled_world = Some (KStr "u2"))
    as Hk by evaluate.
  assert (indexes titled_todos !! "title" = Some (mkIndexParameters true false))
    as Hi by evaluate.
  assert (unique (mkIndexParameters true false) = true) as Hu by reflexivity.
  assert (records titled_todos !! KStr "u1" = Some milk) as Hold by evaluate.
  assert (KStr "u1" <> KStr "u2") as Hne by discriminate.
  assert (evaluate_key_path "title" (todo "u2" "Buy milk")
          = Some (KStr "Buy milk")) as Hp by evaluate.
  assert (evaluate_key_path "title" milk = Some (KStr "Buy milk")) as Ho
    by evaluate.
  destruct (create_refused_on_unique_clash app_store "todos"
              (todo "u2" "Buy milk") titled_world titled_todos (KStr "u2")
              "title" _ (KStr "u1") milk (KStr "Buy milk")
              Hc Ht Hk Hi Hu Hold Hne Hp Ho) as [Hr _].
  split; [exact Hc|]. split; [exact Ht|]. split; [exact Hk|].
  split; [exact Hold|]. split; [exact Hne|exact Hr].
Defined.

Lemma update_adds_record_witness :
  connected plain_store /\
  objectStores (backing plain_world_with_milk) !! "todos"
  = Some (mkObjectStore ∅ {[ KStr "u1" := milk ]}) /\
  (update plain_store "todos" bread plain_world_with_milk).1 = Resolved tt /\
  exists recs,
    table_records (update plain_store "todos" bread plain_world_with_milk).2
      "todos" = Some recs /\
    size recs = 2%nat.
Proof.
  pose proof plain_store_connected as Hc.
  pose proof plain_world_with_milk_todos as Ht.
  assert (records (mkObjectStore ∅ {[ KStr "u1" := milk ]})
            !! KStr (uuids plain_world_with_milk (drawn plain_world_with_milk))
          = None) as Hfree by evaluate.
  assert ((update plain_store "todos" bread plain_world_with_milk).1
          = Resolved tt) as Hr by evaluate.
  destruct (update_adds_record _ _ _ _ _ Hc Ht Hfree Hr)
    as (recs & Hrecs & Hsize & _).
  split; [exact Hc|]. split; [exact Ht|]. split; [exact Hr|].
  exists recs. split; [exact Hrecs|].
  rewrite Hsize. simpl. by rewrite map_size_singleton.
Defined.

Lemma app_repository_getAll :
  IStore_getAll (store app_repository) world_with_milk
  = (Resolved (Some [milk]), world_with_milk).
Proof.
  unfold app_repository. simpl. unfold tables_todos.
  rewrite (getAll_connected _ _ _ _ app_store_connected world_with_milk_todos).
  apply (f_equal (fun l => (Resolved (Some l), world_with_milk))). evaluate.
Qed.

Lemma TodoRepository_getAll_filters_witness :
  IStore_getAll (store app_repository) world_with_milk
  = (Resolved (Some [milk]), world_with_milk) /\
  "title" <> "" /\
  falsy (PStr "Buy bread") = false /\
  TodoRepository_getAll app_repository (Some "title") (PStr "Buy bread")
    world_with_milk
  = (Resolved
       (Some (List.filter
                (fun item =>
                   bool_decide (item !! "title" = Some (PStr "Buy bread")))
                [milk])),
     world_with_milk).
Proof.
  pose proof app_repository_getAll as Hl.
  assert ("title" <> "") as Hf by discriminate.
  assert (falsy (PStr "Buy bread") = false) as Hv by reflexivity.
  split; [exact Hl|]. split; [exact Hf|]. split; [exact Hv|].
  exact (TodoRepository_getAll_filters app_repository "title"
           (PStr "Buy bread") _ _ _ Hl Hf Hv).
Defined.

Lemma TodoRepository_getAll_unfiltered_witness :
  falsy PNull = true /\
  TodoRepository_getAll app_repository (Some "completedBy") PNull world_with_milk
  = IStore_getAll (store app_repository) world_with_milk.
Proof.
  assert (falsy PNull = true) as Hv by reflexivity.
  split; [exact Hv|].
  exact (TodoRepository_getAll_unfiltered app_repository (Some "completedBy")
           PNull world_with_milk (or_intror (or_intror Hv))).
Defined.

Lemma onCreate_refreshes_data_witness :
  connected app_store /\
  objectStores (backing (world opened_page)) !! "todos" = Some empty_todos /\
  storage_key milk (world opened_page) = Some (KStr "u1") /\
  records empty_todos !! KStr "u1" = None /\
  (onCreate app_service milk opened_page).1 = Resolved tt /\
  data (onCreate app_service milk opened_page).2
  = Some (listing (<[KStr "u1" := milk]> (records empty_todos))).
Proof.
  pose proof app_store_connected as Hc.
  pose proof opened_world_todos as Ht.
  pose proof storage_key_milk as Hk.
  assert (records empty_todos !! KStr "u1" = None) as Hfree by reflexivity.
  destruct (onCreate_refreshes_data app_store milk opened_page empty_todos
              (KStr "u1") Hc Ht Hk Hfree milk_unclashing)
    as (Hr & _ & Hd & _).
  split; [exact Hc|]. split; [exact Ht|]. split; [exact Hk|].
  split; [exact Hfree|]. split; [exact Hr|exact Hd].
Defined.

Lemma onUpdate_stored_todo_refused_witness :
  connected app_store /\
  objectStores (backing (world milk_page)) !! "todos" = Some milk_todos /\
  records milk_todos !! KStr "u1" = Some milk /\
  bread !! "id" = Some (PStr "u1") /\
  (onUpdate app_service bread milk_page).1
  = Rejected (new_DOMException "ConstraintError") /\
  data (onUpdate app_service bread milk_page).2 = data milk_page.
Proof.
  pose proof app_store_connected as Hc.
  pose proof world_with_milk_todos as Ht.
  assert (indexes milk_todos !! "id" = Some (mkIndexParameters true false))
    as Hi by evaluate.
  assert (unique (mkIndexParameters true false) = true) as Hu by reflexivity.
  assert (records milk_todos !! KStr "u1" = Some milk) as Hold by evaluate.
  assert (bread !! "id" = Some (PStr "u1")) as Hid by evaluate.
  assert (evaluate_key_path "id" bread = Some (KStr "u1")) as Hp by evaluate.
  assert (evaluate_key_path "id" milk = Some (KStr "u1")) as Ho by evaluate.
  destruct (onUpdate_stored_todo_refused app_store bread milk_page milk_todos
              _ (KStr "u1") milk (PStr "u1") (KStr "u1")
              Hc Ht Hi Hu Hold drawn_key_not_u1 Hid Hp Ho) as (Hr & _ & Hd).
  split; [exact Hc|]. split; [exact Ht|]. split; [exact Hold|].
  split; [exact Hid|]. split; [exact Hr|exact Hd].
Defined.

Lemma onDelete_refreshes_data_witness :
  connected app_store /\
  objectStores (backing (world milk_page)) !! "todos" = Some milk_todos /\
  (onDelete app_service "u1" milk_page).1 = Resolved tt /\
  data (onDelete app_service "u1" milk_page).2
  = Some (listing (delete (KStr "u1") (records milk_todos))).
Proof.
  pose proof app_store_connected as Hc.
  pose proof world_with_milk_todos as Ht.
  destruct (onDelete_refreshes_data app_store "u1" milk_page milk_todos Hc Ht)
    as (Hr & _ & Hd).
  split; [exact Hc|]. split; [exact Ht|]. split; [exact Hr|exact Hd].
Defined.

Lemma onGetTodo_reads_and_refreshes_witness :
  connected app_store /\
  objectStores (backing (world milk_page)) !! "todos" = Some milk_todos /\
  onGetTodo app_service "u1" milk_page
  = (Resolved (found (records milk_todos !! KStr "u1")),
     mkPage (world milk_page) (Some (listing (records milk_todos)))).
Proof.
  pose proof app_store_connected as Hc.
  pose proof world_with_milk_todos as Ht.
  split; [exact Hc|]. split; [exact Ht|].
  exact (onGetTodo_reads_and_refreshes app_store "u1" milk_page milk_todos
           Hc Ht).
Defined.

Lemma createTables_outside_upgrade_witness :
  upgrade_transaction (mkConnection (backing emptied_world) false) = false /\
  (createTables todos_schema (mkConnection (backing emptied_world) false)).2
  = mkConnection (backing emptied_world) false.
Proof.
  assert (upgrade_transaction (mkConnection (backing emptied_world) false)
          = false) as Hu by reflexivity.
  split; [exact Hu|].
  exact (proj1 (createTables_outside_upgrade todos_schema _ Hu)).
Defined.

Lemma create_draws_key_without_id_witness :
  connected app_store /\
  objectStores (backing opened_world) !! "todos" = Some empty_todos /\
  drawn (create app_store "todos" {[ "title" := PStr "Buy milk" ]}
           opened_world).2
  = match ({[ "title" := PStr "Buy milk" ]} : resource) !! "id" with
    | Some _ => drawn opened_world
    | None => S (drawn opened_world)
    end.
Proof.
  pose proof app_store_connected as Hc.
  pose proof opened_world_todos as Ht.
  split; [exact Hc|]. split; [exact Ht|].
  exact (create_draws_key_without_id app_store "todos"
           {[ "title" := PStr "Buy milk" ]} opened_world empty_todos Hc Ht).
Defined.

End MoreExamples.
